(** * City Crave: cart, pricing, checkout and order lifecycle

    A shallow embedding of the decision logic of the ordering client
    (the menu page, the checkout page, the staff dashboard) and of the
    tables and row-level policies declared by the migrations, followed by
    the properties of the specification that were settled on it. *)

From Stdlib Require Import ZArith SpecFloat Ascii DecimalString.
From stdpp Require Import gmap strings list fin_maps.

Open Scope Z_scope.

(** ** JavaScript numbers

    A [number] is an IEEE 754 binary64 value.  The operations are the
    Standard Library's executable specification of binary64 arithmetic
    (round to nearest, ties to even). *)
Module Number.

Definition number : Type := spec_float.

Definition prec : Z := 53.
Definition emax : Z := 1024.

(** An integer as a number (exact up to 2^53 in magnitude). *)
Definition of_Z (z : Z) : number := binary_normalize prec emax z 0 false.

Definition add : number → number → number := SFadd prec emax.
Definition mul : number → number → number := SFmul prec emax.

(** The decimal literal [n / d] for [d] a power of ten: both operands
    are exact and the division is correctly rounded, so the result is
    the binary64 value nearest to the decimal, which is what the literal
    denotes. *)
Definition literal (n d : Z) : number := SFdiv prec emax (of_Z n) (of_Z d).

(** [hundredths m e] is the integer [n] for which [n / 100] is nearest
    to [m * 2^e], the larger one when two are equally near. *)
Definition hundredths (m : positive) (e : Z) : Z :=
  if 0 <=? e then 100 * Z.pos m * 2 ^ e
  else (200 * Z.pos m + 2 ^ (- e)) / 2 ^ (- e + 1).

Definition at_least_1e21 (m : positive) (e : Z) : bool :=
  if 0 <=? e then 10 ^ 21 <=? Z.pos m * 2 ^ e
  else 10 ^ 21 * 2 ^ (- e) <=? Z.pos m.

Definition digit (d : Z) : Ascii.ascii := Ascii.ascii_of_N (Z.to_N (48 + d)).

(** The digits of [n] hundredths with the point before the last two. *)
Definition fixed2_digits (n : Z) : string :=
  NilZero.string_of_uint (N.to_uint (Z.to_N (n / 100)))
    +:+ "."
    +:+ String (digit (n mod 100 / 10)) (String (digit (n mod 10)) "").

(** [x.toFixed(2)].  Magnitudes of 1e21 and above print in exponent
    notation, which is left out: the result is [None] there. *)
Definition toFixed2 (x : number) : option string :=
  match x with
  | S754_nan => Some "NaN"%string
  | S754_infinity false => Some "Infinity"%string
  | S754_infinity true => Some "-Infinity"%string
  | S754_zero _ => Some "0.00"%string
  | S754_finite s m e =>
      if at_least_1e21 m e then None
      else Some ((if s then "-" else "") +:+ fixed2_digits (hundredths m e))%string
  end.

End Number.

(** ** The menu page: cart model *)
Module Menu.
Import Number.

Record MenuItem : Type := {
  id : string;
  name : string;
  price : number;
  description : string;
  photo_url : option string;
  category_id : string;
  available : bool
}.

(** [CartItem extends MenuItem] with a quantity.  Quantities are kept as
    integers: they start at 1 and move by integer steps, where binary64
    addition is exact. *)
Record CartItem : Type := {
  menu_item :> MenuItem;
  quantity : Z
}.

(** [{ ...i, quantity: q }] *)
Definition with_quantity (i : MenuItem) (q : Z) : CartItem :=
  {| menu_item := i; quantity := q |}.

Definition addToCart (item : MenuItem) (prev : list CartItem) : list CartItem :=
  match find (λ i : CartItem, String.eqb (id i) (id item)) prev with
  | Some _ =>
      map (λ i : CartItem,
             if String.eqb (id i) (id item)
             then with_quantity i (quantity i + 1) else i) prev
  | None => prev ++ [with_quantity item 1]
  end.

Definition updateQuantity (itemId : string) (delta : Z)
    (prev : list CartItem) : list CartItem :=
  List.filter (λ i : CartItem, 0 <? quantity i)
    (map (λ i : CartItem,
            if String.eqb (id i) itemId
            then with_quantity i (quantity i + delta) else i) prev).

Definition cartTotal (cart : list CartItem) : number :=
  fold_left (λ sum (item : CartItem),
               add sum (mul (price item) (of_Z (quantity item))))
            cart (of_Z 0).

Definition cartCount (cart : list CartItem) : Z :=
  fold_left (λ sum (item : CartItem), sum + quantity item) cart 0.

(** What [handleCheckout] does: a toast, or the navigation to the
    checkout page carrying the cart and the branch. *)
Inductive CheckoutNav : Type :=
| ToastSelectBranch
| ToastCartEmpty
| NavigateCheckout (cart : list CartItem) (branchId : string).

Definition handleCheckout (selectedBranch : string)
    (cart : list CartItem) : CheckoutNav :=
  if String.eqb selectedBranch "" then ToastSelectBranch
  else if (length cart =? 0)%nat then ToastCartEmpty
  else NavigateCheckout cart selectedBranch.

(** The two callbacks of the cart operations, by name. *)
Definition matches (x : string) : CartItem → bool :=
  λ i, String.eqb (id i) x.

Definition bump (x : string) (d : Z) : CartItem → CartItem :=
  λ i, if String.eqb (id i) x then with_quantity i (quantity i + d) else i.

(** The two cart operations, and a run of them from the empty cart. *)
Inductive CartOp : Type :=
| AddItem (item : MenuItem)
| ChangeQuantity (itemId : string) (delta : Z).

Definition apply_op (cart : list CartItem) (op : CartOp) : list CartItem :=
  match op with
  | AddItem item => addToCart item cart
  | ChangeQuantity itemId delta => updateQuantity itemId delta cart
  end.

Definition run (ops : list CartOp) : list CartItem :=
  fold_left apply_op ops [].

(** The sum of the quantities, line by line. *)
Fixpoint quantity_sum (cart : list CartItem) : Z :=
  match cart with
  | [] => 0
  | i :: rest => quantity i + quantity_sum rest
  end.

Definition has_line (itemId : string) (cart : list CartItem) : Prop :=
  ∃ i : CartItem, i ∈ cart ∧ id i = itemId.

(** The invariant of the data model: every line has a positive quantity
    and no two lines share an item id. *)
Definition positive_quantities (cart : list CartItem) : Prop :=
  Forall (λ i : CartItem, 0 < quantity i) cart.

Definition distinct_ids (cart : list CartItem) : Prop :=
  NoDup (map (λ i : CartItem, id i) cart).

End Menu.

(** ** The data store

    The tables and the row-level policies of the migrations, as far as the
    ordering flow reads or writes them.  Timestamps are left out (the model
    has no clock), and so is the scale of the [decimal(10,2)] columns: a
    numeric column holds the number it was sent.  Ids are compared as
    text: the clients only handle ids in the form the store prints. *)
Module Store.
Import Number.

Inductive OrderStatus : Type :=
| pending | preparing | ready | in_delivery | delivered | cancelled.

Inductive OrderType : Type :=
| dine_in | takeaway | delivery.

#[global] Instance OrderStatus_eq_dec : EqDecision OrderStatus.
Proof. solve_decision. Defined.

#[global] Instance OrderType_eq_dec : EqDecision OrderType.
Proof. solve_decision. Defined.

(** A string of UTF-16 code units, for free text. *)
Definition text : Type := list N.

(** A row of [orders]; its [id] is the key it is stored under. *)
Record OrderRow : Type := {
  user_id : option string;
  branch_id : option string;
  order_type : OrderType;
  status : OrderStatus;
  tax : number;
  tip : number;
  delivery_fee : number;
  total : number;
  delivery_address : option text;
  notes : option text
}.

(** A row of [ordered_items] (its own [id] and [notes] are never read). *)
Record ItemRow : Type := {
  order_id : option string;
  menu_id : option string;
  quantity : Z;
  price_each : number
}.

(** [menu] maps an item id to its catalog price, [staff] a user id to
    the branch the user is assigned to ([user_id] is UNIQUE; a staff row
    without a branch satisfies no policy and is left out). *)
Record Store : Type := {
  branches : gset string;
  menu : gmap string number;
  staff : gmap string string;
  orders : gmap string OrderRow;
  ordered_items : list ItemRow
}.

Inductive StoreError : Type :=
| InvalidUuid
| UniqueViolation
| ForeignKeyViolation
| CheckViolation
| PolicyViolation.

(** *** The [uuid] column type

    The text of a uuid as the store prints it, 8-4-4-4-12 hexadecimal
    digits.  Text that does not read as a uuid is refused by the column. *)
Definition is_hex (c : Ascii.ascii) : bool :=
  let n := Ascii.N_of_ascii c in
  ((48 <=? n) && (n <=? 57) || (65 <=? n) && (n <=? 70)
   || (97 <=? n) && (n <=? 102))%N.

Fixpoint hex_run (n : nat) (s : string) : option string :=
  match n with
  | O => Some s
  | S n' =>
      match s with
      | String c s' => if is_hex c then hex_run n' s' else None
      | EmptyString => None
      end
  end.

Definition hyphen (s : string) : option string :=
  match s with
  | String c s' => if Ascii.eqb c "-"%char then Some s' else None
  | EmptyString => None
  end.

Fixpoint hex_groups (groups : list nat) (s : string) : option string :=
  match groups with
  | [] => Some s
  | n :: rest =>
      match hex_run n s with
      | Some s' =>
          match rest with
          | [] => Some s'
          | _ :: _ =>
              match hyphen s' with
              | Some s'' => hex_groups rest s''
              | None => None
              end
          end
      | None => None
      end
  end.

Definition is_uuid (s : string) : bool :=
  match hex_groups [8; 4; 4; 4; 12]%nat s with
  | Some EmptyString => true
  | _ => false
  end.

Definition uuid_ok (v : option string) : bool :=
  match v with
  | Some s => is_uuid s
  | None => true
  end.

(** *** Policies on [orders] *)

(** [user_id = auth.uid()] *)
Definition own (uid : string) (o : OrderRow) : bool :=
  match user_id o with
  | Some u => String.eqb u uid
  | None => false
  end.

(** [EXISTS (SELECT 1 FROM staff s WHERE s.user_id = auth.uid()
    AND s.branch_id = orders.branch_id)] *)
Definition staff_of_branch (st : Store) (uid : string)
    (branch : option string) : bool :=
  match staff st !! uid, branch with
  | Some b, Some b' => String.eqb b b'
  | _, _ => false
  end.

(** "Users can view their own orders", "Staff can view orders for their
    branch" *)
Definition orders_select_policy (st : Store) (uid : string)
    (o : OrderRow) : bool :=
  own uid o || staff_of_branch st uid (branch_id o).

(** "Users can create their own orders" *)
Definition orders_insert_policy (uid : string) (o : OrderRow) : bool :=
  own uid o.

(** "Users can update their own pending orders", "Staff can update
    orders for their branch".  Neither has a WITH CHECK clause, so the
    same expression is checked on the new row. *)
Definition orders_update_policy (st : Store) (uid : string)
    (o : OrderRow) : bool :=
  own uid o && bool_decide (status o = pending)
  || staff_of_branch st uid (branch_id o).

(** The column types of a row of [orders] and its foreign key to
    [branches].  The one to [profiles] is not modelled: a signed-in user
    has a profile, made by [handle_new_user] at sign-up. *)
Definition order_row_check (st : Store) (o : OrderRow) : option StoreError :=
  if negb (uuid_ok (user_id o) && uuid_ok (branch_id o)) then Some InvalidUuid
  else
    match branch_id o with
    | Some b =>
        if bool_decide (b ∈ branches st) then None
        else Some ForeignKeyViolation
    | None => None
    end.

Definition set_orders (st : Store) (os : gmap string OrderRow) : Store :=
  {| branches := branches st; menu := menu st; staff := staff st;
     orders := os; ordered_items := ordered_items st |}.

Definition set_ordered_items (st : Store) (items : list ItemRow) : Store :=
  {| branches := branches st; menu := menu st; staff := staff st;
     orders := orders st; ordered_items := items |}.

Definition set_menu (st : Store) (m : gmap string number) : Store :=
  {| branches := branches st; menu := m; staff := staff st;
     orders := orders st; ordered_items := ordered_items st |}.

Definition add_order (k : string) (o : OrderRow) (st : Store) : Store :=
  set_orders st (<[k := o]> (orders st)).

Definition add_items (rows : list ItemRow) (st : Store) : Store :=
  set_ordered_items st (ordered_items st ++ rows).

(** [insert(row).select().single()] on [orders] by user [uid]; [new_id]
    is the value [gen_random_uuid()] draws for the primary key. *)
Definition insert_order (uid new_id : string) (o : OrderRow)
    (st : Store) : StoreError + (string * Store) :=
  match order_row_check st o with
  | Some e => inl e
  | None =>
      if negb (orders_insert_policy uid o) then inl PolicyViolation
      else
        match orders st !! new_id with
        | Some _ => inl UniqueViolation
        | None => inr (new_id, add_order new_id o st)
        end
  end.

(** "Users can insert items to their own orders" *)
Definition items_insert_policy (st : Store) (uid : string)
    (r : ItemRow) : bool :=
  match order_id r with
  | Some oid =>
      match orders st !! oid with
      | Some o => own uid o
      | None => false
      end
  | None => false
  end.

(** Column types, [CHECK (quantity > 0)] and the foreign keys of a row
    of [ordered_items]. *)
Definition item_row_check (st : Store) (r : ItemRow) : option StoreError :=
  if negb (uuid_ok (order_id r) && uuid_ok (menu_id r)) then Some InvalidUuid
  else if negb (0 <? quantity r) then Some CheckViolation
  else
    match menu_id r with
    | Some m =>
        match menu st !! m with
        | Some _ => None
        | None => Some ForeignKeyViolation
        end
    | None => None
    end.

Definition item_row_error (st : Store) (uid : string)
    (r : ItemRow) : option StoreError :=
  match item_row_check st r with
  | Some e => Some e
  | None =>
      if items_insert_policy st uid r then None else Some PolicyViolation
  end.

Fixpoint first_error (st : Store) (uid : string)
    (rows : list ItemRow) : option StoreError :=
  match rows with
  | [] => None
  | r :: rest =>
      match item_row_error st uid r with
      | Some e => Some e
      | None => first_error st uid rest
      end
  end.

(** [insert(rows)] on [ordered_items]: one statement, all rows or none. *)
Definition insert_items (uid : string) (rows : list ItemRow)
    (st : Store) : StoreError + Store :=
  match first_error st uid rows with
  | Some e => inl e
  | None => inr (add_items rows st)
  end.

(** [update(patch)] on the rows of [orders] selected by [sel], issued
    by user [uid].  Rows the policy hides are passed over silently; a
    new row that fails the policy or a constraint aborts the statement. *)
Definition update_target (st : Store) (uid : string)
    (sel : string → OrderRow → bool) (k : string) (o : OrderRow) : bool :=
  sel k o && orders_update_policy st uid o.

Definition new_row_error (st : Store) (uid : string)
    (o : OrderRow) : option StoreError :=
  match order_row_check st o with
  | Some e => Some e
  | None =>
      if orders_update_policy st uid o then None else Some PolicyViolation
  end.

Fixpoint first_update_error (st : Store) (uid : string)
    (sel : string → OrderRow → bool) (patch : OrderRow → OrderRow)
    (rows : list (string * OrderRow)) : option StoreError :=
  match rows with
  | [] => None
  | (k, o) :: rest =>
      match
        (if update_target st uid sel k o
         then new_row_error st uid (patch o) else None)
      with
      | Some e => Some e
      | None => first_update_error st uid sel patch rest
      end
  end.

Definition update_orders (uid : string) (sel : string → OrderRow → bool)
    (patch : OrderRow → OrderRow) (st : Store) : StoreError + Store :=
  match first_update_error st uid sel patch (map_to_list (orders st)) with
  | Some e => inl e
  | None =>
      inr (set_orders st
             (map_imap (λ k o, Some (if update_target st uid sel k o
                                     then patch o else o))
                       (orders st)))
  end.


(** The items of an order, as the dashboard's nested select reads them. *)
Definition items_of_order (oid : string) (st : Store) : list ItemRow :=
  List.filter
    (λ r, match order_id r with
          | Some o => String.eqb o oid
          | None => false
          end)
    (ordered_items st).


(** Referential integrity of [ordered_items.order_id]. *)
Definition items_reference_orders (st : Store) : Prop :=
  ∀ r oid, r ∈ ordered_items st → order_id r = Some oid →
           is_Some (orders st !! oid).

End Store.

(** ** The checkout page *)
Module Checkout.
Import Number Store Menu.

Definition subtotal (cart : list CartItem) : number :=
  fold_left (λ sum (item : CartItem),
               add sum (mul (price item) (of_Z (quantity item))))
            cart (of_Z 0).

Definition tax (cart : list CartItem) : number :=
  mul (subtotal cart) (literal 1 10).

Definition deliveryFee (orderType : OrderType) : number :=
  if bool_decide (orderType = delivery) then literal 599 100 else of_Z 0.

Definition total (cart : list CartItem) (orderType : OrderType) : number :=
  add (add (subtotal cart) (tax cart)) (deliveryFee orderType).

(** [`$${x.toFixed(2)}`] *)
Definition display (x : number) : option string :=
  (λ s, "$" +:+ s) <$> toFixed2 x.

(** [location.state || { cart: [], branchId: "" }] *)
Definition location_state (state : option (list CartItem * string))
    : list CartItem * string :=
  match state with
  | Some cs => cs
  | None => ([], EmptyString)
  end.

(** White space and line terminators, the code units [trim] strips. *)
Definition is_white_space (c : N) : bool :=
  ((c =? 0x09) || (c =? 0x0A) || (c =? 0x0B) || (c =? 0x0C) || (c =? 0x0D)
   || (c =? 0x20) || (c =? 0xA0) || (c =? 0x1680)
   || (0x2000 <=? c) && (c <=? 0x200A)
   || (c =? 0x2028) || (c =? 0x2029) || (c =? 0x202F) || (c =? 0x205F)
   || (c =? 0x3000) || (c =? 0xFEFF))%N.

Fixpoint trimStart (s : text) : text :=
  match s with
  | [] => []
  | c :: rest => if is_white_space c then trimStart rest else s
  end.

Definition trimEnd (s : text) : text := rev (trimStart (rev s)).

Definition trim (s : text) : text := trimEnd (trimStart s).

(** The empty string is the one falsy string. *)
Definition falsy (s : text) : bool :=
  match s with
  | [] => true
  | _ :: _ => false
  end.

Inductive PlaceOrderResult : Type :=
| ToastEnterAddress
| NavigateAuth
| ToastErrorPlacingOrder (e : StoreError)
| ToastOrderPlaced (order_id : string).

(** The row [handlePlaceOrder] sends to [orders]. *)
Definition order_payload (uid branchId : string) (cart : list CartItem)
    (orderType : OrderType) (deliveryAddress notes : text) : OrderRow :=
  {| user_id := Some uid;
     branch_id := Some branchId;
     order_type := orderType;
     status := pending;
     Store.tax := tax cart;
     tip := of_Z 0;
     delivery_fee := deliveryFee orderType;
     Store.total := total cart orderType;
     delivery_address :=
       if bool_decide (orderType = delivery) then Some deliveryAddress
       else None;
     Store.notes := if falsy notes then None else Some notes |}.

(** The rows [handlePlaceOrder] sends to [ordered_items]. *)
Definition orderItems (order_id : string)
    (cart : list CartItem) : list ItemRow :=
  map (λ item : CartItem,
         {| Store.order_id := Some order_id;
            menu_id := Some (id item);
            Store.quantity := quantity item;
            price_each := price item |})
      cart.

(** [handlePlaceOrder]: [session] is the signed-in user, if any, and
    [new_id] the key the store draws for the new order. *)
Definition handlePlaceOrder (session : option string) (new_id : string)
    (cart : list CartItem) (branchId : string) (orderType : OrderType)
    (deliveryAddress notes : text) (st : Store)
    : PlaceOrderResult * Store :=
  if bool_decide (orderType = delivery) && falsy (trim deliveryAddress)
  then (ToastEnterAddress, st)
  else
    match session with
    | None => (NavigateAuth, st)
    | Some uid =>
        match
          insert_order uid new_id
            (order_payload uid branchId cart orderType deliveryAddress notes)
            st
        with
        | inl orderError => (ToastErrorPlacingOrder orderError, st)
        | inr (order_id, st1) =>
            match insert_items uid (orderItems order_id cart) st1 with
            | inl itemsError => (ToastErrorPlacingOrder itemsError, st1)
            | inr st2 => (ToastOrderPlaced order_id, st2)
            end
        end
    end.

End Checkout.

(** ** The pages of the customer's client *)
Module Client.
Import Store Menu Checkout.

Inductive Page : Type :=
| AuthPage
| OrdersPage
| MenuPage (cart : list CartItem) (selectedBranch : string)
| CheckoutPage (cart : list CartItem) (branchId : string)
    (orderType : OrderType) (deliveryAddress notes : text).

(** The checkout page as it mounts on a navigation state. *)
Definition enter_checkout (state : option (list CartItem * string)) : Page :=
  let '(cart, branchId) := location_state state in
  CheckoutPage cart branchId dine_in [] [].

Definition after_handleCheckout (cart : list CartItem)
    (selectedBranch : string) : Page :=
  match handleCheckout selectedBranch cart with
  | NavigateCheckout c b => enter_checkout (Some (c, b))
  | _ => MenuPage cart selectedBranch
  end.

Definition after_place_order (r : PlaceOrderResult) (p : Page) : Page :=
  match r with
  | ToastOrderPlaced _ => OrdersPage
  | NavigateAuth => AuthPage
  | _ => p
  end.

(** One action on the client.  [open_menu]: the menu page mounts, its
    cart empty and no branch selected yet.  [select_branch]: the branch
    select, or the first branch [fetchData] picks.  [add_to_cart] and
    [update_quantity]: the buttons of a menu card (they pass 1 and -1; any
    integer is allowed here).  [checkout_click]: either checkout button,
    [handleCheckout].  [open_checkout]: the checkout route opened by its
    address, without navigation state.  [set_order_type],
    [set_delivery_address], [set_notes]: the fields of the form.
    [place_order]: the Place Order button, for any session and any store
    answering.  [open_orders], [open_auth]: the other routes. *)
Inductive page_step : Page → Page → Prop :=
| open_menu p :
    page_step p (MenuPage [] EmptyString)
| select_branch cart b b' :
    page_step (MenuPage cart b) (MenuPage cart b')
| add_to_cart cart b item :
    page_step (MenuPage cart b) (MenuPage (addToCart item cart) b)
| update_quantity cart b itemId delta :
    page_step (MenuPage cart b) (MenuPage (updateQuantity itemId delta cart) b)
| checkout_click cart b :
    page_step (MenuPage cart b) (after_handleCheckout cart b)
| open_checkout p :
    page_step p (enter_checkout None)
| set_order_type cart b ot a n ot' :
    page_step (CheckoutPage cart b ot a n) (CheckoutPage cart b ot' a n)
| set_delivery_address cart b ot a n a' :
    page_step (CheckoutPage cart b ot a n) (CheckoutPage cart b ot a' n)
| set_notes cart b ot a n n' :
    page_step (CheckoutPage cart b ot a n) (CheckoutPage cart b ot a n')
| place_order cart b ot a n session new_id st :
    page_step (CheckoutPage cart b ot a n)
      (after_place_order
         (handlePlaceOrder session new_id cart b ot a n st).1
         (CheckoutPage cart b ot a n))
| open_orders p :
    page_step p OrdersPage
| open_auth p :
    page_step p AuthPage.

(** The pages the client can show.  Besides the steps above, the browser
    can return (reload, back, forward) to a checkout page it showed
    before, which mounts again on the navigation state of that visit. *)
Inductive page_reachable : Page → Prop :=
| reach_start : page_reachable AuthPage
| reach_step p q : page_reachable p → page_step p q → page_reachable q
| reach_history p cart b ot a n :
    page_reachable p →
    page_reachable (CheckoutPage cart b ot a n) →
    page_reachable (enter_checkout (Some (cart, b))).

(** A checkout page that shows no cart line was not given a branch. *)
Definition empty_cart_has_no_branch (p : Page) : Prop :=
  match p with
  | CheckoutPage [] b _ _ _ => b = EmptyString
  | _ => True
  end.

End Client.

(** ** The staff dashboard *)
Module Staff.
Import Store.

(** The items of the status selector shown for an order. *)
Definition status_options (o : OrderRow) : list OrderStatus :=
  [pending; preparing; ready]
    ++ (if bool_decide (order_type o = delivery) then [in_delivery] else [])
    ++ [delivered; cancelled].

(** [fetchOrders]: the new value of the dashboard's [orders], which stays
    as it is when no branch is set.  The sorting by creation time is left
    out. *)
Definition fetchOrders (uid branchId : string) (st : Store)
    (orders : list (string * OrderRow)) : list (string * OrderRow) :=
  if String.eqb branchId "" then orders
  else
    List.filter
      (λ ko : string * OrderRow,
         orders_select_policy st uid ko.2
         && bool_decide (branch_id ko.2 = Some branchId)
         && negb (bool_decide (status ko.2 = delivered))
         && negb (bool_decide (status ko.2 = cancelled)))
      (map_to_list (Store.orders st)).

Definition set_status (newStatus : OrderStatus) (o : OrderRow) : OrderRow :=
  {| user_id := user_id o; branch_id := branch_id o;
     order_type := order_type o; status := newStatus;
     tax := tax o; tip := tip o; delivery_fee := delivery_fee o;
     total := total o; delivery_address := delivery_address o;
     notes := notes o |}.

Inductive StatusToast : Type :=
| ToastStatusUpdated
| ToastError (e : StoreError).

Definition updateOrderStatus (uid orderId : string)
    (newStatus : OrderStatus) (st : Store) : StatusToast * Store :=
  match
    update_orders uid (λ k _, String.eqb k orderId) (set_status newStatus) st
  with
  | inl error => (ToastError error, st)
  | inr st' => (ToastStatusUpdated, st')
  end.

End Staff.

(** ** The store under the two clients

    [fetched] collects every row a dashboard has been handed by
    [fetchOrders]; a dashboard offers its selector on such rows, however
    old. *)
Module System.
Import Store Menu Checkout Staff.

Record State : Type := {
  store : Store;
  fetched : list (string * OrderRow)
}.

(** [customer_places_order]: a checkout page runs [handlePlaceOrder].
    [dashboard_fetches]: a dashboard runs [fetchOrders].
    [dashboard_selects]: on a row it holds, a dashboard's selector is set
    to one of the statuses it offers for that row, [updateOrderStatus]. *)
Inductive step : State → State → Prop :=
| customer_places_order s session new_id cart branchId ot a n :
    step s
      {| store := (handlePlaceOrder session new_id cart branchId ot a n
                     (store s)).2;
         fetched := fetched s |}
| dashboard_fetches s uid branchId :
    step s
      {| store := store s;
         fetched := fetchOrders uid branchId (store s) [] ++ fetched s |}
| dashboard_selects s uid k o v :
    (k, o) ∈ fetched s →
    v ∈ status_options o →
    step s
      {| store := (updateOrderStatus uid k v (store s)).2;
         fetched := fetched s |}.

Inductive reachable : State → Prop :=
| reach_init st : orders st = ∅ → reachable {| store := st; fetched := [] |}
| reach_step s s' : reachable s → step s s' → reachable s'.

Definition in_delivery_only_for_delivery (st : Store) : Prop :=
  ∀ k o, orders st !! k = Some o →
         status o = in_delivery → order_type o = delivery.

(** Every row a dashboard holds is a row of the store, of the same type. *)
Definition fetched_rows_known (s : State) : Prop :=
  ∀ k o, (k, o) ∈ fetched s →
         ∃ o', orders (store s) !! k = Some o' ∧ order_type o' = order_type o.

End System.

(** ** Sample data

    The two starters of the seed menu, a branch, a customer and a staff
    member of that branch. *)
Module Sample.
Import Number Store Menu Checkout Staff.

Definition appetizers : string := "0a000000-0000-4000-8000-000000000001".

Definition spring_rolls : MenuItem :=
  {| id := "0b000000-0000-4000-8000-000000000001";
     name := "Spring Rolls";
     price := literal 899 100;
     description := "Crispy vegetable spring rolls with sweet chili sauce";
     photo_url := Some "https://images.unsplash.com/photo-1569744723309-b5a0c6e5a5e5"%string;
     category_id := appetizers;
     available := true |}.

Definition chicken_wings : MenuItem :=
  {| id := "0b000000-0000-4000-8000-000000000002";
     name := "Chicken Wings";
     price := literal 1299 100;
     description := "Buffalo style wings with blue cheese dip";
     photo_url := Some "https://images.unsplash.com/photo-1608039755401-742074f0548d"%string;
     category_id := appetizers;
     available := true |}.

(** Spring Rolls twice, Chicken Wings once. *)
Definition cart : list CartItem :=
  [with_quantity spring_rolls 2; with_quantity chicken_wings 1].

Definition downtown : string := "0c000000-0000-4000-8000-000000000001".
Definition customer : string := "0d000000-0000-4000-8000-000000000001".
Definition waiter : string := "0d000000-0000-4000-8000-000000000002".
Definition order1 : string := "0e000000-0000-4000-8000-000000000001".

Definition empty_store : Store :=
  {| branches := {[downtown]};
     menu := {[id spring_rolls := price spring_rolls;
               id chicken_wings := price chicken_wings]};
     staff := {[waiter := downtown]};
     orders := ∅;
     ordered_items := [] |}.

(** The same store after Chicken Wings left the catalog. *)
Definition store_without_wings : Store :=
  set_menu empty_store (delete (id chicken_wings) (menu empty_store)).

(** The store after the customer ordered the cart to eat in. *)
Definition store_with_dine_in : Store :=
  (handlePlaceOrder (Some customer) order1 cart downtown dine_in [] []
     empty_store).2.

(** The address "1 Main", in code units. *)
Definition home : text := [0x31; 0x20; 0x4D; 0x61; 0x69; 0x6E]%N.

(** The store after the customer ordered the cart for delivery. *)
Definition store_with_delivery : Store :=
  (handlePlaceOrder (Some customer) order1 cart downtown delivery home []
     empty_store).2.


(** The delivery order, placed, fetched by the waiter's dashboard and sent
    out for delivery from its selector. *)
Definition delivery_placed : System.State :=
  {| System.store := store_with_delivery; System.fetched := [] |}.

Definition delivery_fetched : System.State :=
  {| System.store := store_with_delivery;
     System.fetched :=
       fetchOrders waiter downtown store_with_delivery [] ++ [] |}.

Definition delivery_sent : System.State :=
  {| System.store :=
       (updateOrderStatus waiter order1 in_delivery store_with_delivery).2;
     System.fetched := System.fetched delivery_fetched |}.

End Sample.

(** ** Who lands where: the guards of the pages *)
Module Account.
Import Store.

(** The enum [user_type] of [profiles], and the enum [app_role] of
    [user_roles]. *)
Inductive user_type : Type :=
| customer | staff.

Inductive app_role : Type :=
| role_admin | role_staff | role_customer.

#[global] Instance user_type_eq_dec : EqDecision user_type.
Proof. solve_decision. Defined.

#[global] Instance app_role_eq_dec : EqDecision app_role.
Proof. solve_decision. Defined.

Inductive Route : Type :=
| RouteAuth | RouteMenu | RouteStaff.

(** [profile?.user_type === "staff"], on the row the page was handed for
    the signed-in user, if any. *)
Definition is_staff_profile (profile : option user_type) : bool :=
  match profile with
  | Some staff => true
  | _ => false
  end.

(** [checkAuth] of the menu page: where it sends the visitor, or [None]
    when the visitor stays. *)
Definition checkAuth (session : option string)
    (profile : option user_type) : option Route :=
  match session with
  | None => Some RouteAuth
  | Some _ => if is_staff_profile profile then Some RouteStaff else None
  end.

(** What [checkStaffAuth] of the dashboard ends in: a redirect, the
    dashboard of a branch, or the dashboard with the notice that no branch
    is assigned. *)
Inductive StaffEntry : Type :=
| Redirect (to : Route)
| Dashboard (branchId : string)
| NoBranchAssigned.

Definition checkStaffAuth (session : option string)
    (profile : option user_type) (st : Store) : StaffEntry :=
  match session with
  | None => Redirect RouteAuth
  | Some uid =>
      if negb (is_staff_profile profile) then Redirect RouteMenu
      else
        match Store.staff st !! uid with
        | Some b => if String.eqb b "" then NoBranchAssigned else Dashboard b
        | None => NoBranchAssigned
        end
  end.

(** The effect of the sign-in page on mount: a visitor with a session is
    sent to the menu. *)
Definition authRedirect (session : option string) : option Route :=
  match session with
  | Some _ => Some RouteMenu
  | None => None
  end.

(** The page on which a visitor of page [r] is once the guard of [r] has
    run. *)
Definition settle (session : option string) (profile : option user_type)
    (st : Store) (r : Route) : Route :=
  match r with
  | RouteAuth => default RouteAuth (authRedirect session)
  | RouteMenu => default RouteMenu (checkAuth session profile)
  | RouteStaff =>
      match checkStaffAuth session profile st with
      | Redirect to => to
      | _ => RouteStaff
      end
  end.

(** The rows of [user_roles], UNIQUE on (user_id, role). *)
Definition has_role (roles : list (string * app_role)) (_user_id : string)
    (_role : app_role) : bool :=
  existsb (λ r : string * app_role,
             String.eqb r.1 _user_id && bool_decide (r.2 = _role))
          roles.

(** Where a successful sign-in navigates, on the answer of [has_role]
    for the role staff. *)
Definition after_login (hasStaffRole : bool) : Route :=
  if hasStaffRole then RouteStaff else RouteMenu.

(** [INSERT ... ON CONFLICT (user_id, role) DO NOTHING] of one row. *)
Definition insert_role (r : string * app_role)
    (roles : list (string * app_role)) : list (string * app_role) :=
  if has_role roles r.1 r.2 then roles else roles ++ [r].

Definition role_of (t : user_type) : app_role :=
  match t with
  | staff => role_staff
  | customer => role_customer
  end.

(** [INSERT INTO user_roles SELECT id, r FROM profiles WHERE user_type = t
    ON CONFLICT DO NOTHING], for [r] the role named like [t]. *)
Definition carry_over (t : user_type) (profiles : list (string * user_type))
    (roles : list (string * app_role)) : list (string * app_role) :=
  fold_left (λ acc (p : string * user_type),
               if bool_decide (p.2 = t)
               then insert_role (p.1, role_of t) acc else acc)
            profiles roles.

(** The two statements that carry the profiles over to [user_roles]:
    first the staff profiles, then the customers. *)
Definition migrate_roles (profiles : list (string * user_type))
    (roles : list (string * app_role)) : list (string * app_role) :=
  carry_over customer profiles (carry_over staff profiles roles).

End Account.

(** ** Status badges *)
Module Badge.
Import Store.

(** The labels of the enum [order_status]. *)
Definition status_label (s : OrderStatus) : string :=
  match s with
  | pending => "pending"
  | preparing => "preparing"
  | ready => "ready"
  | in_delivery => "in_delivery"
  | delivered => "delivered"
  | cancelled => "cancelled"
  end.

(** The [colors] object of the dashboard's [getStatusColor]. *)
Definition staff_colors : gmap string string :=
  list_to_map
    [("pending", "bg-yellow-500"); ("preparing", "bg-blue-500");
     ("ready", "bg-green-500"); ("in_delivery", "bg-purple-500")]%string.

(** The [colors] object of the order list's [getStatusColor]. *)
Definition orders_colors : gmap string string :=
  list_to_map
    [("pending", "bg-yellow-500"); ("preparing", "bg-blue-500");
     ("ready", "bg-green-500"); ("in_delivery", "bg-purple-500");
     ("delivered", "bg-success"); ("cancelled", "bg-destructive")]%string.

(** [colors[status] || "bg-muted"], on the status of an order row. *)
Definition getStatusColor (colors : gmap string string)
    (status : OrderStatus) : string :=
  match colors !! status_label status with
  | Some c => if String.eqb c "" then "bg-muted" else c
  | None => "bg-muted"
  end.

End Badge.

(** ** The customer's order list *)
Module Orders.
Import Store.

(** [fetchOrders] of the order list: every row of [orders] the select
    policies show the user (the sorting by creation time is left out). *)
Definition fetchOrders (uid : string)
    (st : Store) : list (string * OrderRow) :=
  List.filter (λ ko : string * OrderRow, orders_select_policy st uid ko.2)
    (map_to_list (Store.orders st)).

End Orders.

(** * Properties *)

Import Number Menu.

(** ** The cart *)
Section CartFacts.

Implicit Types (cart : list CartItem) (item : MenuItem) (i j : CartItem).

Lemma bump_id x d i : id (bump x d i) = id i.
Proof. unfold bump. by destruct (String.eqb (id i) x). Qed.

Lemma bump_other x d i : id i ≠ x → bump x d i = i.
Proof.
  intros Hne. unfold bump.
  destruct (String.eqb_spec (id i) x); [contradiction | done].
Qed.

Lemma bump_same x d i :
  id i = x → bump x d i = with_quantity i (quantity i + d).
Proof.
  intros He. unfold bump.
  destruct (String.eqb_spec (id i) x); [done | contradiction].
Qed.

Lemma map_bump_ids x d cart :
  map (λ i, id i) (map (bump x d) cart) = map (λ i, id i) cart.
Proof.
  induction cart as [|i rest IH]; simpl; [done |].
  by rewrite bump_id, IH.
Qed.

Lemma find_matches_None x cart :
  find (matches x) cart = None ↔ ¬ has_line x cart.
Proof.
  split.
  - intros Hf (i & Hi & Hid).
    apply list_elem_of_In in Hi.
    pose proof (find_none _ _ Hf i Hi) as Hm.
    unfold matches in Hm. apply String.eqb_neq in Hm. contradiction.
  - intros Hno. destruct (find (matches x) cart) as [i|] eqn:Hf; [|done].
    apply find_some in Hf as [Hi Hm]. exfalso. apply Hno.
    exists i. split; [by apply list_elem_of_In |].
    by apply String.eqb_eq.
Qed.

Lemma addToCart_existing item cart :
  has_line (id item) cart →
  addToCart item cart = map (bump (id item) 1) cart.
Proof.
  intros Hl. unfold addToCart.
  destruct (find _ cart) eqn:Hf; [done |].
  by apply (find_matches_None (id item)) in Hf.
Qed.

Lemma addToCart_new item cart :
  ¬ has_line (id item) cart →
  addToCart item cart = cart ++ [with_quantity item 1].
Proof.
  intros Hl. apply find_matches_None in Hl.
  unfold addToCart. unfold matches in Hl. by rewrite Hl.
Qed.

Lemma has_line_dec x cart : has_line x cart ∨ ¬ has_line x cart.
Proof.
  destruct (find (matches x) cart) eqn:Hf.
  - left. apply find_some in Hf as [Hi Hm].
    eexists. split; [by apply list_elem_of_In |]. by apply String.eqb_eq.
  - right. by apply find_matches_None.
Qed.

Lemma has_line_ids x cart :
  has_line x cart ↔ x ∈ map (λ i, id i) cart.
Proof.
  split.
  - intros (i & Hi & <-). apply list_elem_of_In.
    apply (in_map (λ i : CartItem, id i)). by apply list_elem_of_In.
  - intros Hx. apply list_elem_of_In, in_map_iff in Hx as (i & Hid & Hi).
    exists i. split; [by apply list_elem_of_In | done].
Qed.

Lemma lookup_map_bump x d cart n :
  map (bump x d) cart !! n = bump x d <$> cart !! n.
Proof.
  revert n. induction cart as [|i rest IH]; intros [|n]; simpl; auto.
Qed.

Lemma updateQuantity_unfold x d cart :
  updateQuantity x d cart
  = List.filter (λ i, 0 <? quantity i) (map (bump x d) cart).
Proof. done. Qed.

Lemma updateQuantity_cons x d i cart :
  updateQuantity x d (i :: cart)
  = if 0 <? quantity (bump x d i)
    then bump x d i :: updateQuantity x d cart
    else updateQuantity x d cart.
Proof. done. Qed.

(** Both operations keep quantities positive and item ids distinct. *)
Lemma addToCart_positive item cart :
  positive_quantities cart → positive_quantities (addToCart item cart).
Proof.
  intros Hp. destruct (has_line_dec (id item) cart) as [Hl|Hl].
  - rewrite addToCart_existing by done.
    apply Forall_map. eapply Forall_impl; [exact Hp |].
    intros i Hi. unfold bump. simpl in Hi.
    destruct (String.eqb (id i) (id item)); simpl; lia.
  - rewrite addToCart_new by done.
    apply Forall_app. split; [done |].
    constructor; [simpl; lia | constructor].
Qed.

Lemma addToCart_distinct item cart :
  distinct_ids cart → distinct_ids (addToCart item cart).
Proof.
  unfold distinct_ids. intros Hd.
  destruct (has_line_dec (id item) cart) as [Hl|Hl].
  - rewrite addToCart_existing by done. by rewrite map_bump_ids.
  - rewrite addToCart_new by done. rewrite map_app. simpl.
    apply NoDup_app. split; [done |]. split; [| apply NoDup_singleton].
    intros x Hx Hx'. apply list_elem_of_singleton in Hx'. subst x.
    by apply Hl, has_line_ids.
Qed.

Lemma updateQuantity_positive x d cart :
  positive_quantities (updateQuantity x d cart).
Proof.
  apply Forall_forall. intros i Hi.
  apply list_elem_of_In, filter_In in Hi as [_ Hi]. lia.
Qed.

Lemma updateQuantity_ids_sublist x d cart :
  map (λ i, id i) (updateQuantity x d cart)
    `sublist_of` map (λ i, id i) cart.
Proof.
  induction cart as [|i rest IH]; [constructor |].
  rewrite updateQuantity_cons.
  destruct (0 <? quantity (bump x d i)); simpl.
  - rewrite bump_id. by constructor.
  - by constructor.
Qed.

Lemma updateQuantity_distinct x d cart :
  distinct_ids cart → distinct_ids (updateQuantity x d cart).
Proof.
  unfold distinct_ids. intros Hd.
  eapply sublist_NoDup; [exact Hd | apply updateQuantity_ids_sublist].
Qed.

Lemma distinct_ids_inj cart i j :
  distinct_ids cart → i ∈ cart → j ∈ cart → id i = id j → i = j.
Proof.
  unfold distinct_ids.
  induction cart as [|c rest IH]; intros Hd Hi Hj Hid.
  - by apply not_elem_of_nil in Hi.
  - simpl in Hd. apply NoDup_cons in Hd as [Hc Hd].
    apply elem_of_cons in Hi as [->|Hi]; apply elem_of_cons in Hj as [->|Hj];
      try done.
    + exfalso. apply Hc. rewrite Hid. apply has_line_ids. by exists j.
    + exfalso. apply Hc. rewrite <- Hid. apply has_line_ids. by exists i.
    + by apply IH.
Qed.

Lemma run_snoc ops op : run (ops ++ [op]) = apply_op (run ops) op.
Proof. unfold run. by rewrite fold_left_app. Qed.

Lemma run_invariant ops :
  positive_quantities (run ops) ∧ distinct_ids (run ops).
Proof.
  induction ops as [|op ops IH] using rev_ind.
  - split; [constructor | constructor].
  - rewrite run_snoc. destruct IH as [Hp Hd]. destruct op; simpl.
    + split; [by apply addToCart_positive | by apply addToCart_distinct].
    + split; [apply updateQuantity_positive | by apply updateQuantity_distinct].
Qed.

Lemma cartCount_from (acc : Z) cart :
  fold_left (λ sum (item : CartItem), sum + quantity item) cart acc
  = acc + quantity_sum cart.
Proof.
  revert acc. induction cart as [|i rest IH]; intros acc; simpl; [lia |].
  rewrite IH. lia.
Qed.

Lemma quantity_sum_nonneg cart :
  positive_quantities cart → 0 ≤ quantity_sum cart.
Proof.
  induction 1 as [|i rest Hi _ IH]; simpl; lia.
Qed.

Lemma updateQuantity_removes x d cart i :
  distinct_ids cart → i ∈ cart → id i = x → quantity i + d ≤ 0 →
  ¬ has_line x (updateQuantity x d cart).
Proof.
  intros Hd Hi Hid Hq (j & Hj & Hjid).
  rewrite updateQuantity_unfold in Hj.
  apply list_elem_of_In, filter_In in Hj as [Hj Hpos].
  apply in_map_iff in Hj as (j0 & Hb & Hj0).
  apply list_elem_of_In in Hj0.
  assert (id j0 = x) as Hj0id by (by rewrite <- Hjid, <- Hb, bump_id).
  assert (i = j0) as -> by (apply (distinct_ids_inj cart); congruence).
  rewrite bump_same in Hb by done. subst j. simpl in Hpos. lia.
Qed.

Lemma updateQuantity_others x d cart :
  positive_quantities cart →
  List.filter (λ i, negb (matches x i)) (updateQuantity x d cart)
  = List.filter (λ i, negb (matches x i)) cart.
Proof.
  induction 1 as [|i rest Hi _ IH]; [done |].
  rewrite updateQuantity_cons. unfold matches in *.
  destruct (String.eqb_spec (id i) x) as [He|Hne].
  - simpl. rewrite (proj2 (String.eqb_eq _ _) He). simpl.
    destruct (0 <? quantity (bump x d i)); simpl; [| done].
    rewrite bump_id, (proj2 (String.eqb_eq _ _) He). done.
  - rewrite bump_other by done.
    rewrite (proj2 (Z.ltb_lt _ _) Hi). simpl.
    rewrite (proj2 (String.eqb_neq _ _) Hne). simpl. by rewrite IH.
Qed.

Lemma addToCart_others item cart :
  List.filter (λ i, negb (matches (id item) i)) (addToCart item cart)
  = List.filter (λ i, negb (matches (id item) i)) cart.
Proof.
  destruct (has_line_dec (id item) cart) as [Hl|Hl].
  - rewrite addToCart_existing by done. clear Hl.
    induction cart as [|i rest IH]; [done |]. simpl. unfold matches in *.
    rewrite bump_id.
    destruct (String.eqb_spec (id i) (id item)) as [He|Hne]; simpl; [done |].
    rewrite bump_other by done. by rewrite IH.
  - rewrite addToCart_new by done. rewrite List.filter_app. simpl.
    unfold matches. simpl. rewrite String.eqb_refl. simpl.
    by rewrite app_nil_r.
Qed.

End CartFacts.

Lemma map_bump_absent x d (cart : list CartItem) :
  ¬ has_line x cart → map (bump x d) cart = cart.
Proof.
  induction cart as [|i rest IH]; intros Hno; [done |]. simpl.
  rewrite bump_other, IH; [done | |].
  - intros (j & Hj & Hid). apply Hno. exists j. split; [by right | done].
  - intros Hid. apply Hno. exists i. split; [by left | done].
Qed.

(** C2: addItem on a cart that already holds a line for the item's id
    adds 1 to that line's quantity and appends nothing; on a cart without
    such a line it appends a new line with quantity 1.  Adding the same
    item twice to a cart without it leaves one line for it, with
    quantity 2. *)
Theorem C2_addItem_consolidates (cart : list CartItem) (item : MenuItem) :
  (has_line (id item) cart →
     length (addToCart item cart) = length cart
     ∧ ∀ (n : nat) (i : CartItem), cart !! n = Some i →
         addToCart item cart !! n
         = Some (if decide (id i = id item)
                 then with_quantity i (quantity i + 1) else i))
  ∧ (¬ has_line (id item) cart →
       addToCart item cart = cart ++ [with_quantity item 1]
       ∧ addToCart item (addToCart item cart)
         = cart ++ [with_quantity item 2]).
Proof.
  split.
  - intros Hl. rewrite addToCart_existing by done. split.
    + apply length_map.
    + intros n i Hn. rewrite lookup_map_bump, Hn. simpl. f_equal.
      destruct (decide (id i = id item)) as [He|Hne].
      * by apply bump_same.
      * by apply bump_other.
  - intros Hno. rewrite (addToCart_new item cart Hno). split; [done |].
    rewrite addToCart_existing.
    + rewrite map_app, map_bump_absent by done. simpl.
      by rewrite bump_same.
    + exists (with_quantity item 1). split; [| done].
      apply elem_of_app. right. by left.
Qed.

(** C3: after any sequence of addItem and changeQuantity calls on the
    empty cart, count() is the sum of the line quantities and is not
    negative, every line has a strictly positive quantity, and a
    changeQuantity that brings a line to 0 or below leaves no line for
    that item. *)
Theorem C3_cart_invariants (ops : list CartOp) :
  cartCount (run ops) = quantity_sum (run ops)
  ∧ 0 ≤ cartCount (run ops)
  ∧ positive_quantities (run ops)
  ∧ ∀ (itemId : string) (delta : Z) (i : CartItem),
      i ∈ run ops → id i = itemId → quantity i + delta ≤ 0 →
      ¬ has_line itemId (run (ops ++ [ChangeQuantity itemId delta])).
Proof.
  destruct (run_invariant ops) as [Hp Hd].
  assert (cartCount (run ops) = quantity_sum (run ops)) as Hc.
  { unfold cartCount. rewrite cartCount_from. lia. }
  repeat split; [done | | done |].
  - rewrite Hc. by apply quantity_sum_nonneg.
  - intros itemId delta i Hi Hid Hq. rewrite run_snoc. simpl.
    by apply (updateQuantity_removes itemId delta (run ops) i).
Qed.

(** C10: on a cart whose lines have positive quantities, addToCart and
    updateQuantity leave every line with another id as it was and where
    it was among the lines kept; addToCart keeps the lines' ids in place
    and can only append one, and updateQuantity adds no line. *)
Theorem C10_cart_frame (cart : list CartItem) (item : MenuItem)
    (itemId : string) (delta : Z) :
  positive_quantities cart →
  (List.filter (λ i, negb (matches (id item) i)) (addToCart item cart)
   = List.filter (λ i, negb (matches (id item) i)) cart
   ∧ (∀ (n : nat) (i : CartItem), cart !! n = Some i → id i ≠ id item →
        addToCart item cart !! n = Some i)
   ∧ map (λ i : CartItem, id i) cart
       `prefix_of` map (λ i : CartItem, id i) (addToCart item cart))
  ∧ (List.filter (λ i, negb (matches itemId i)) (updateQuantity itemId delta cart)
     = List.filter (λ i, negb (matches itemId i)) cart
     ∧ map (λ i : CartItem, id i) (updateQuantity itemId delta cart)
         `sublist_of` map (λ i : CartItem, id i) cart
     ∧ (length (updateQuantity itemId delta cart) ≤ length cart)%nat).
Proof.
  intros Hp. split; [split; [| split] | split; [| split]].
  - apply addToCart_others.
  - intros n i Hn Hne.
    destruct (has_line_dec (id item) cart) as [Hl|Hl].
    + rewrite addToCart_existing by done.
      rewrite lookup_map_bump, Hn. simpl. by rewrite bump_other.
    + rewrite addToCart_new by done. by apply lookup_app_l_Some.
  - destruct (has_line_dec (id item) cart) as [Hl|Hl].
    + rewrite addToCart_existing by done. by rewrite map_bump_ids.
    + rewrite addToCart_new by done. rewrite map_app. by eexists.
  - by apply updateQuantity_others.
  - apply updateQuantity_ids_sublist.
  - pose proof (sublist_length _ _ (updateQuantity_ids_sublist itemId delta cart))
      as Hlen.
    by rewrite !length_map in Hlen.
Qed.

(** ** Pricing *)

Lemma subtotal_snoc (cart : list CartItem) (i : CartItem) :
  Checkout.subtotal (cart ++ [i])
  = add (Checkout.subtotal cart) (mul (price i) (of_Z (quantity i))).
Proof. unfold Checkout.subtotal. by rewrite fold_left_app. Qed.

(** C1: the charges of the checkout page.  The subtotal is the sum, line
    after line, of unit price times quantity (the cart's total); the tax
    is the subtotal times 0.1; the delivery fee is 5.99 for a delivery
    and 0 otherwise; the total is subtotal + tax + delivery fee.  For
    Spring Rolls at 8.99 twice and Chicken Wings at 12.99 once, eating in:
    subtotal 30.97, tax 3.097 shown as $3.10, total 34.067 shown as
    $34.07; for delivery the total has 5.99 more and is shown as $40.06. *)
Theorem C1_checkout_charges :
  (∀ (cart : list CartItem) (orderType : Store.OrderType),
     Checkout.subtotal cart = cartTotal cart
     ∧ Checkout.subtotal [] = of_Z 0
     ∧ (∀ i : CartItem,
          Checkout.subtotal (cart ++ [i])
          = add (Checkout.subtotal cart) (mul (price i) (of_Z (quantity i))))
     ∧ Checkout.tax cart = mul (Checkout.subtotal cart) (literal 1 10)
     ∧ Checkout.deliveryFee orderType
       = match orderType with
         | Store.delivery => literal 599 100
         | _ => of_Z 0
         end
     ∧ Checkout.total cart orderType
       = add (add (Checkout.subtotal cart) (Checkout.tax cart))
             (Checkout.deliveryFee orderType))
  ∧ (Checkout.subtotal Sample.cart = literal 3097 100
     ∧ Checkout.display (Checkout.subtotal Sample.cart) = Some "$30.97"%string
     ∧ Checkout.tax Sample.cart = literal 3097 1000
     ∧ Checkout.display (Checkout.tax Sample.cart) = Some "$3.10"%string
     ∧ Checkout.total Sample.cart Store.dine_in = literal 34067 1000
     ∧ Checkout.display (Checkout.total Sample.cart Store.dine_in)
       = Some "$34.07"%string
     ∧ Checkout.total Sample.cart Store.delivery
       = add (Checkout.total Sample.cart Store.dine_in) (literal 599 100)
     ∧ Checkout.display (Checkout.total Sample.cart Store.delivery)
       = Some "$40.06"%string).
Proof.
  split.
  - intros cart orderType. repeat split.
    + intros i. apply subtotal_snoc.
    + by destruct orderType.
  - repeat split; vm_compute; reflexivity.
Qed.

(** ** The store *)
Section StoreFacts.
Import Store.

Implicit Types (st : Store) (o : OrderRow) (uid k : string).

Lemma set_orders_same st : set_orders st (orders st) = st.
Proof. by destruct st. Qed.

Lemma insert_order_inr uid new_id o st k st1 :
  insert_order uid new_id o st = inr (k, st1) →
  k = new_id
  ∧ orders st !! new_id = None
  ∧ order_row_check st o = None
  ∧ st1 = add_order new_id o st.
Proof.
  unfold insert_order. intros H.
  destruct (order_row_check st o); [done |].
  destruct (orders_insert_policy uid o); simpl in H; [| done].
  destruct (orders st !! new_id) eqn:Hk; [done |].
  by inversion H.
Qed.

Lemma insert_items_inr uid rows st st2 :
  insert_items uid rows st = inr st2 →
  st2 = add_items rows st.
Proof.
  unfold insert_items. destruct (first_error st uid rows); [done |].
  by inversion 1.
Qed.

Lemma first_update_error_no_target st uid sel patch rows :
  (∀ k o, (k, o) ∈ rows → update_target st uid sel k o = false) →
  first_update_error st uid sel patch rows = None.
Proof.
  induction rows as [|[k o] rest IH]; intros Hno; [done |]. simpl.
  rewrite (Hno k o) by (by left). apply IH.
  intros k' o' Hin. apply Hno. by right.
Qed.

Lemma update_orders_lookup uid sel patch st st' k :
  update_orders uid sel patch st = inr st' →
  orders st' !! k
  = (λ o, if update_target st uid sel k o then patch o else o)
      <$> orders st !! k.
Proof.
  unfold update_orders.
  destruct (first_update_error _ _ _ _ _); [done |].
  inversion 1; subst st'. simpl. rewrite map_lookup_imap.
  by destruct (orders st !! k).
Qed.

Lemma update_orders_no_target uid sel patch st :
  (∀ k o, orders st !! k = Some o → update_target st uid sel k o = false) →
  update_orders uid sel patch st = inr st.
Proof.
  intros Hno. unfold update_orders.
  rewrite first_update_error_no_target.
  - f_equal. rewrite <- (set_orders_same st) at 3.
    unfold set_orders. f_equal.
    apply map_eq. intros k. rewrite map_lookup_imap.
    destruct (orders st !! k) as [o|] eqn:Hk; [| done]. simpl.
    by rewrite (Hno k o Hk).
  - intros k o Hin. apply Hno. by apply elem_of_map_to_list.
Qed.


End StoreFacts.



(** ** Checkout *)
Section CheckoutFacts.
Import Store Checkout.

Implicit Types (st : Store) (cart : list CartItem) (a n : text).

Lemma trimStart_blank a :
  Forall (λ c, is_white_space c = true) a → trimStart a = [].
Proof.
  induction 1 as [|c rest Hc _ IH]; [done |]. simpl. by rewrite Hc.
Qed.

Lemma trim_blank a :
  Forall (λ c, is_white_space c = true) a → trim a = [].
Proof.
  intros Ha. unfold trim, trimEnd. by rewrite (trimStart_blank a Ha).
Qed.

Lemma trim_nonempty a : trim a ≠ [] → a ≠ [].
Proof. intros Ht ->. by apply Ht. Qed.

Lemma falsy_nil a : falsy a = true ↔ a = [].
Proof. by destruct a. Qed.

(** The five ways [handlePlaceOrder] ends. *)
Lemma handlePlaceOrder_cases session new_id cart b ot a n st :
  (ot = delivery ∧ trim a = []
   ∧ handlePlaceOrder session new_id cart b ot a n st = (ToastEnterAddress, st))
  ∨ (ot = delivery → trim a ≠ [])
    ∧ (session = None
       ∧ handlePlaceOrder session new_id cart b ot a n st = (NavigateAuth, st)
       ∨ ∃ uid, session = Some uid
         ∧ ((∃ e, insert_order uid new_id
                    (order_payload uid b cart ot a n) st = inl e
               ∧ handlePlaceOrder session new_id cart b ot a n st
                 = (ToastErrorPlacingOrder e, st))
            ∨ orders st !! new_id = None
              ∧ order_row_check st (order_payload uid b cart ot a n) = None
              ∧ ((∃ e, handlePlaceOrder session new_id cart b ot a n st
                       = (ToastErrorPlacingOrder e,
                          add_order new_id (order_payload uid b cart ot a n) st))
                 ∨ handlePlaceOrder session new_id cart b ot a n st
                   = (ToastOrderPlaced new_id,
                      add_items (orderItems new_id cart)
                        (add_order new_id
                           (order_payload uid b cart ot a n) st))))).
Proof.
  unfold handlePlaceOrder.
  destruct (bool_decide (ot = delivery) && falsy (trim a)) eqn:Hguard.
  { left. apply andb_true_iff in Hguard as [Hot Ha].
    apply bool_decide_eq_true in Hot. apply falsy_nil in Ha. done. }
  right. split.
  { intros -> Ha. rewrite Ha in Hguard.
    by rewrite bool_decide_eq_true_2 in Hguard. }
  destruct session as [uid|]; [| by left].
  right. exists uid. split; [done |].
  destruct (insert_order uid new_id _ st) as [e|[k st1]] eqn:Hins.
  { left. by exists e. }
  right. apply insert_order_inr in Hins as (-> & Hfresh & Hcheck & ->).
  split; [done |]. split; [done |].
  destruct (insert_items uid _ _) as [e|st2] eqn:Hitems.
  - left. by exists e.
  - right. by rewrite (insert_items_inr _ _ _ _ Hitems).
Qed.

Lemma filter_keep_all {A} (f : A → bool) (l : list A) :
  (∀ x, x ∈ l → f x = true) → List.filter f l = l.
Proof.
  induction l as [|x l IH]; intros Hall; [done |]. simpl.
  rewrite (Hall x) by (by left). f_equal. apply IH.
  intros y Hy. apply Hall. by right.
Qed.




End CheckoutFacts.

(** C7: a delivery checkout whose address is blank or white space only is
    turned down and the store stays as it was; and every order that a
    checkout creates has a non-empty delivery address exactly when its
    type is delivery, and none at all otherwise. *)
Theorem C7_delivery_address_required (session : option string)
    (new_id : string) (cart : list CartItem) (branchId : string)
    (orderType : Store.OrderType) (deliveryAddress notes : Store.text)
    (st : Store.Store) :
  (orderType = Store.delivery →
   Forall (λ c, Checkout.is_white_space c = true) deliveryAddress →
   Checkout.handlePlaceOrder session new_id cart branchId orderType
     deliveryAddress notes st
   = (Checkout.ToastEnterAddress, st))
  ∧ (∀ (k : string) (o : Store.OrderRow),
       Store.orders st !! k = None →
       Store.orders
         (Checkout.handlePlaceOrder session new_id cart branchId orderType
            deliveryAddress notes st).2 !! k = Some o →
       (Store.order_type o = Store.delivery
        ↔ ∃ addr, Store.delivery_address o = Some addr ∧ addr ≠ [])
       ∧ (Store.order_type o ≠ Store.delivery →
          Store.delivery_address o = None)).
Proof.
  split.
  - intros -> Hblank. unfold Checkout.handlePlaceOrder.
    by rewrite (trim_blank _ Hblank).
  - intros k o Hold Hnew.
    assert (k = new_id ∧ ∃ uid,
              o = Checkout.order_payload uid branchId cart orderType
                    deliveryAddress notes
              ∧ (orderType = Store.delivery → Checkout.trim deliveryAddress ≠ []))
      as (-> & uid & -> & Haddr).
    { destruct (handlePlaceOrder_cases session new_id cart branchId orderType
                  deliveryAddress notes st)
        as [(_ & _ & Hr)|[Haddr [[_ Hr]|(uid & _ & [(e & _ & Hr)|(_ & _ & Hr)])]]];
        try (rewrite Hr in Hnew; simpl in Hnew; congruence).
      assert (Store.orders
                (Checkout.handlePlaceOrder session new_id cart branchId
                   orderType deliveryAddress notes st).2
              = <[new_id := Checkout.order_payload uid branchId cart orderType
                                deliveryAddress notes]> (Store.orders st))
        as Ho by (by destruct Hr as [[e ->]| ->]).
      rewrite Ho in Hnew. destruct (decide (new_id = k)) as [->|Hne].
      - rewrite lookup_insert_eq in Hnew. inversion Hnew. eauto.
      - rewrite lookup_insert_ne in Hnew by done. congruence. }
    simpl. destruct (decide (orderType = Store.delivery)) as [->|Hne].
    + rewrite bool_decide_eq_true_2 by done. split; [| done].
      split; [| done]. intros _. exists deliveryAddress.
      split; [done |]. by apply trim_nonempty, Haddr.
    + rewrite bool_decide_eq_false_2 by done. split; [| done].
      split; [done |]. by intros (addr & Hs & _).
Qed.

(** C8, as the code has it: the order record is stored first and its line
    items in a second request.  A checkout ends in one of three ways:
    nothing is stored; the order record alone is stored and an error is
    shown; or the order record and one item per cart line are stored.
    Line items are never stored without their order. *)
Theorem C8_order_first_items_second (session : option string)
    (new_id : string) (cart : list CartItem) (branchId : string)
    (orderType : Store.OrderType) (deliveryAddress notes : Store.text)
    (st : Store.Store) :
  (∃ r, Checkout.handlePlaceOrder session new_id cart branchId orderType
          deliveryAddress notes st = (r, st)
        ∧ ∀ oid, r ≠ Checkout.ToastOrderPlaced oid)
  ∨ ∃ uid, session = Some uid ∧ Store.orders st !! new_id = None
    ∧ ((∃ e, Checkout.handlePlaceOrder session new_id cart branchId orderType
               deliveryAddress notes st
             = (Checkout.ToastErrorPlacingOrder e,
                Store.add_order new_id
                  (Checkout.order_payload uid branchId cart orderType
                     deliveryAddress notes) st))
       ∨ Checkout.handlePlaceOrder session new_id cart branchId orderType
           deliveryAddress notes st
         = (Checkout.ToastOrderPlaced new_id,
            Store.add_items (Checkout.orderItems new_id cart)
              (Store.add_order new_id
                 (Checkout.order_payload uid branchId cart orderType
                    deliveryAddress notes) st))).
Proof.
  destruct (handlePlaceOrder_cases session new_id cart branchId orderType
              deliveryAddress notes st)
    as [(_ & _ & Hr)|[_ [[_ Hr]|(uid & Hs & [(e & _ & Hr)|(Hfresh & _ & Hr)])]]].
  - left. by eexists.
  - left. by eexists.
  - left. by eexists.
  - right. exists uid. done.
Qed.

(** C8, as stated, fails: with Chicken Wings gone from the catalog, the
    checkout of the sample cart stores the order record, the request for
    its line items is refused, and the order stays stored with no item. *)
Lemma C8_counterexample :
  Store.orders Sample.store_without_wings !! Sample.order1 = None
  ∧ (Checkout.handlePlaceOrder (Some Sample.customer) Sample.order1
       Sample.cart Sample.downtown Store.dine_in [] []
       Sample.store_without_wings).1
    = Checkout.ToastErrorPlacingOrder Store.ForeignKeyViolation
  ∧ Store.orders
      (Checkout.handlePlaceOrder (Some Sample.customer) Sample.order1
         Sample.cart Sample.downtown Store.dine_in [] []
         Sample.store_without_wings).2 !! Sample.order1
    = Some (Checkout.order_payload Sample.customer Sample.downtown
              Sample.cart Store.dine_in [] [])
  ∧ Store.items_of_order Sample.order1
      (Checkout.handlePlaceOrder (Some Sample.customer) Sample.order1
         Sample.cart Sample.downtown Store.dine_in [] []
         Sample.store_without_wings).2
    = [].
Proof. repeat split; vm_compute; reflexivity. Qed.


(** ** From the menu page to the checkout page *)
Section ClientFacts.
Import Store Checkout Client.

Lemma handleCheckout_navigates b cart c b' :
  handleCheckout b cart = NavigateCheckout c b' →
  cart ≠ [] ∧ c = cart ∧ b' = b ∧ b ≠ EmptyString.
Proof.
  unfold handleCheckout.
  destruct (String.eqb_spec b "") as [->|Hb]; [done |].
  destruct cart as [|i rest]; [done |]. simpl.
  intros Hnav. inversion Hnav; subst. done.
Qed.

Lemma handleCheckout_empty b c b' :
  handleCheckout b [] ≠ NavigateCheckout c b'.
Proof. intros H. by apply handleCheckout_navigates in H as [? _]. Qed.

Lemma after_handleCheckout_safe cart b :
  empty_cart_has_no_branch (after_handleCheckout cart b).
Proof.
  unfold after_handleCheckout.
  destruct (handleCheckout b cart) as [| |c b'] eqn:Hnav; [done | done |].
  apply handleCheckout_navigates in Hnav as (Hne & -> & -> & _).
  simpl. by destruct cart.
Qed.

Lemma after_place_order_safe r p :
  empty_cart_has_no_branch p → empty_cart_has_no_branch (after_place_order r p).
Proof. by destruct r. Qed.

Lemma page_step_safe p q :
  page_step p q → empty_cart_has_no_branch p → empty_cart_has_no_branch q.
Proof.
  destruct 1; intros Hp; try done.
  - apply after_handleCheckout_safe.
  - by apply after_place_order_safe.
Qed.

Lemma page_reachable_safe p : page_reachable p → empty_cart_has_no_branch p.
Proof.
  induction 1 as [|p q _ IH Hstep|p cart b ot a n _ _ _ IH]; [done | |].
  - by apply (page_step_safe p q).
  - simpl in *. by destruct cart.
Qed.

Lemma place_order_without_branch session new_id cart ot a n st :
  ∃ r, handlePlaceOrder session new_id cart EmptyString ot a n st = (r, st)
       ∧ ∀ oid, r ≠ ToastOrderPlaced oid.
Proof.
  unfold handlePlaceOrder.
  destruct (bool_decide (ot = delivery) && falsy (trim a)); [by eexists |].
  destruct session as [uid|]; [| by eexists].
  unfold insert_order, order_row_check. simpl.
  rewrite andb_false_r. simpl. by eexists.
Qed.

End ClientFacts.

(** C6: with an empty cart no checkout goes through, whatever the order
    type.  On the menu page the checkout button only shows a message and
    does not open the checkout page; and on whichever way the checkout
    page was reached, placing an order from it with an empty cart shows an
    error or asks for the address, and leaves the store as it was. *)
Theorem C6_empty_cart_rejected (p : Client.Page) :
  Client.page_reachable p →
  (∀ b, p = Client.MenuPage [] b →
        Client.after_handleCheckout [] b = p
        ∧ ∀ c b', handleCheckout b [] ≠ NavigateCheckout c b')
  ∧ (∀ b orderType a n, p = Client.CheckoutPage [] b orderType a n →
       ∀ session new_id st,
         ∃ r, Checkout.handlePlaceOrder session new_id [] b orderType a n st
              = (r, st)
              ∧ ∀ oid, r ≠ Checkout.ToastOrderPlaced oid).
Proof.
  intros Hreach. split.
  - intros b ->. split; [| apply handleCheckout_empty].
    unfold Client.after_handleCheckout.
    destruct (handleCheckout b []) eqn:Hnav; try done.
    by apply handleCheckout_empty in Hnav.
  - intros b orderType a n -> session new_id st.
    apply page_reachable_safe in Hreach. simpl in Hreach. subst b.
    apply place_order_without_branch.
Qed.

(** The checkout page opened without a navigation state: the customer
    presses the button on it, signed in, against the sample store. *)
Lemma C6_witness :
  ∃ r, Checkout.handlePlaceOrder (Some Sample.customer) Sample.order1 []
         EmptyString Store.dine_in [] [] Sample.empty_store
       = (r, Sample.empty_store)
       ∧ ∀ oid, r ≠ Checkout.ToastOrderPlaced oid.
Proof.
  apply (proj2 (C6_empty_cart_rejected (Client.enter_checkout None)
                  (Client.reach_step Client.AuthPage _ Client.reach_start
                     (Client.open_checkout Client.AuthPage)))
           EmptyString Store.dine_in [] [] eq_refl).
Defined.

(** ** The order lifecycle *)
Section LifecycleFacts.
Import Store Checkout Staff System.

Implicit Types (st : Store) (o : OrderRow) (uid k : string).

Lemma in_delivery_offered o :
  in_delivery ∈ status_options o ↔ order_type o = delivery.
Proof.
  unfold status_options. destruct (decide (order_type o = delivery)) as [He|Hne].
  - rewrite bool_decide_eq_true_2 by done. split; [done |]. intros _.
    simpl. do 3 right. by left.
  - rewrite bool_decide_eq_false_2 by done. split; [| done]. simpl.
    intros H. repeat (apply elem_of_cons in H as [H|H]; [done |]).
    by apply not_elem_of_nil in H.
Qed.

Lemma handlePlaceOrder_orders session new_id cart b ot a n st :
  orders (handlePlaceOrder session new_id cart b ot a n st).2 = orders st
  ∨ ∃ uid, orders st !! new_id = None
    ∧ orders (handlePlaceOrder session new_id cart b ot a n st).2
      = <[new_id := order_payload uid b cart ot a n]> (orders st).
Proof.
  destruct (handlePlaceOrder_cases session new_id cart b ot a n st)
    as [(_ & _ & Hr)|[_ [[_ Hr]|(uid & _ & [(e & _ & Hr)|(Hfresh & _ & Hr)])]]];
    try (left; by rewrite Hr).
  right. exists uid. split; [done |]. by destruct Hr as [[e ->]| ->].
Qed.

Lemma updateOrderStatus_lookup uid k v st k' :
  orders (updateOrderStatus uid k v st).2 !! k' = orders st !! k'
  ∨ k' = k
    ∧ ∃ o, orders st !! k = Some o
      ∧ orders (updateOrderStatus uid k v st).2 !! k' = Some (set_status v o).
Proof.
  unfold updateOrderStatus.
  destruct (update_orders uid _ _ st) as [e|st'] eqn:Hu; [by left |]. simpl.
  rewrite (update_orders_lookup _ _ _ _ _ k' Hu).
  destruct (orders st !! k') as [o|] eqn:Hk'; [| by left]. simpl.
  unfold update_target.
  destruct (String.eqb_spec k' k) as [->|Hne]; [| by left]. simpl.
  destruct (orders_update_policy st uid o); [| by left].
  right. split; [done |]. by exists o.
Qed.

Lemma place_keeps_lifecycle session new_id cart b ot a n st :
  in_delivery_only_for_delivery st →
  in_delivery_only_for_delivery
    (handlePlaceOrder session new_id cart b ot a n st).2.
Proof.
  intros Hinv k o Hk Hs.
  destruct (handlePlaceOrder_orders session new_id cart b ot a n st)
    as [Ho|(uid & Hfresh & Ho)]; rewrite Ho in Hk.
  - by apply (Hinv k).
  - destruct (decide (new_id = k)) as [->|Hne].
    + rewrite lookup_insert_eq in Hk. inversion Hk; subst o. done.
    + rewrite lookup_insert_ne in Hk by done. by apply (Hinv k).
Qed.

Lemma step_invariant s s' :
  step s s' →
  in_delivery_only_for_delivery (store s) ∧ fetched_rows_known s →
  in_delivery_only_for_delivery (store s') ∧ fetched_rows_known s'.
Proof.
  intros Hstep [Hlife Hknown].
  destruct Hstep as [s session new_id cart b ot a n|s uid b|s uid k o v Hin Hv].
  - split; [by apply place_keeps_lifecycle |].
    intros k o Hin. simpl in *. destruct (Hknown k o Hin) as (o' & Hk & Ht).
    destruct (handlePlaceOrder_orders session new_id cart b ot a n (store s))
      as [Ho|(uid & Hfresh & Ho)]; rewrite Ho.
    + by exists o'.
    + exists o'. split; [| done].
      rewrite lookup_insert_ne; [done | congruence].
  - split; [done |]. intros k o Hin. simpl in *.
    apply elem_of_app in Hin as [Hin|Hin]; [| by apply Hknown].
    unfold fetchOrders in Hin.
    destruct (String.eqb b ""); [by apply not_elem_of_nil in Hin |].
    apply list_elem_of_In, filter_In in Hin as [Hin _].
    apply list_elem_of_In, elem_of_map_to_list in Hin. by exists o.
  - destruct (Hknown k o Hin) as (o0 & Hk & Ht). split.
    + intros k' o' Hk' Hs. simpl in Hk'.
      destruct (updateOrderStatus_lookup uid k v (store s) k')
        as [Hsame|(-> & o1 & Hk1 & Hnew)].
      * rewrite Hsame in Hk'. by apply (Hlife k').
      * rewrite Hnew in Hk'. inversion Hk'; subst o'. simpl in *. subst v.
        apply in_delivery_offered in Hv. congruence.
    + intros k' o' Hin'. simpl in *.
      destruct (Hknown k' o' Hin') as (o1 & Hk1 & Ht1).
      destruct (updateOrderStatus_lookup uid k v (store s) k')
        as [Hsame|(-> & o2 & Hk2 & Hnew)].
      * rewrite Hsame. by exists o1.
      * rewrite Hnew. exists (set_status v o2). split; [done |].
        simpl. congruence.
Qed.

Lemma reachable_invariant s :
  reachable s →
  in_delivery_only_for_delivery (store s) ∧ fetched_rows_known s.
Proof.
  induction 1 as [st Hempty|s s' _ IH Hstep].
  - split.
    + intros k o Hk. simpl in Hk. by rewrite Hempty in Hk.
    + intros k o Hin. by apply not_elem_of_nil in Hin.
  - by apply (step_invariant s s').
Qed.

End LifecycleFacts.

(** C4, as the code has it: the dashboard's status selector offers
    in_delivery for an order exactly when the order's type is delivery,
    and in every state reached from a store without orders by customers
    checking out and by staff fetching orders and choosing among the
    statuses their selector offers, every order whose status is
    in_delivery is a delivery order. *)
Theorem C4_selector_gates_in_delivery (s : System.State) :
  System.reachable s →
  (∀ o, Store.in_delivery ∈ Staff.status_options o
        ↔ Store.order_type o = Store.delivery)
  ∧ System.in_delivery_only_for_delivery (System.store s).
Proof.
  intros Hreach. split.
  - apply in_delivery_offered.
  - by apply reachable_invariant.
Qed.

(** C4, as stated, fails: neither updateOrderStatus nor the update policy
    looks at the order type.  The waiter's request to set the sample
    dine-in order to in_delivery is carried out. *)
Lemma C4_counterexample :
  Store.order_type <$> Store.orders Sample.store_with_dine_in !! Sample.order1
  = Some Store.dine_in
  ∧ (Staff.updateOrderStatus Sample.waiter Sample.order1 Store.in_delivery
       Sample.store_with_dine_in).1
    = Staff.ToastStatusUpdated
  ∧ Store.order_type <$>
      Store.orders
        (Staff.updateOrderStatus Sample.waiter Sample.order1 Store.in_delivery
           Sample.store_with_dine_in).2 !! Sample.order1
    = Some Store.dine_in
  ∧ Store.status <$>
      Store.orders
        (Staff.updateOrderStatus Sample.waiter Sample.order1 Store.in_delivery
           Sample.store_with_dine_in).2 !! Sample.order1
    = Some Store.in_delivery.
Proof. repeat split; vm_compute; reflexivity. Qed.

(** ** The theorems at the sample data *)

(** The sample delivery order, placed, fetched by the waiter's dashboard
    and set to in_delivery from its selector: a reachable state with an
    order in delivery. *)
Lemma C4_witness :
  (∀ o, Store.in_delivery ∈ Staff.status_options o
        ↔ Store.order_type o = Store.delivery)
  ∧ System.in_delivery_only_for_delivery (System.store Sample.delivery_sent).
Proof.
  apply (C4_selector_gates_in_delivery Sample.delivery_sent).
  apply (System.reach_step Sample.delivery_fetched).
  - apply (System.reach_step Sample.delivery_placed).
    + apply (System.reach_step
               {| System.store := Sample.empty_store; System.fetched := [] |}).
      * apply System.reach_init. reflexivity.
      * apply (System.customer_places_order
                 {| System.store := Sample.empty_store; System.fetched := [] |}
                 (Some Sample.customer) Sample.order1 Sample.cart
                 Sample.downtown Store.delivery Sample.home []).
    + apply (System.dashboard_fetches Sample.delivery_placed
               Sample.waiter Sample.downtown).
  - apply (System.dashboard_selects Sample.delivery_fetched Sample.waiter
             Sample.order1
             (Checkout.order_payload Sample.customer Sample.downtown
                Sample.cart Store.delivery Sample.home [])
             Store.in_delivery).
    + vm_compute. left.
    + vm_compute. do 3 right. left.
Defined.



(** Adding Spring Rolls to the sample cart, and taking one Chicken Wings
    off it. *)
Lemma C10_witness :
  (List.filter (λ i, negb (matches (id Sample.spring_rolls) i))
     (addToCart Sample.spring_rolls Sample.cart)
   = List.filter (λ i, negb (matches (id Sample.spring_rolls) i)) Sample.cart
   ∧ (∀ (n : nat) (i : CartItem), Sample.cart !! n = Some i →
        id i ≠ id Sample.spring_rolls →
        addToCart Sample.spring_rolls Sample.cart !! n = Some i)
   ∧ map (λ i : CartItem, id i) Sample.cart
       `prefix_of` map (λ i : CartItem, id i)
                     (addToCart Sample.spring_rolls Sample.cart))
  ∧ (List.filter (λ i, negb (matches (id Sample.chicken_wings) i))
       (updateQuantity (id Sample.chicken_wings) (-1) Sample.cart)
     = List.filter (λ i, negb (matches (id Sample.chicken_wings) i)) Sample.cart
     ∧ map (λ i : CartItem, id i)
         (updateQuantity (id Sample.chicken_wings) (-1) Sample.cart)
         `sublist_of` map (λ i : CartItem, id i) Sample.cart
     ∧ (length (updateQuantity (id Sample.chicken_wings) (-1) Sample.cart)
        ≤ length Sample.cart)%nat).
Proof.
  apply (C10_cart_frame Sample.cart Sample.spring_rolls
           (id Sample.chicken_wings) (-1)).
  repeat constructor.
Defined.

(** * Further properties of the code *)

(** ** The cart operations together *)
Section CartAlgebra.

Implicit Types (cart : list CartItem) (item : MenuItem) (i j : CartItem).

Lemma updateQuantity_all_kept x d cart :
  (∀ i, i ∈ cart → 0 < quantity (bump x d i)) →
  updateQuantity x d cart = map (bump x d) cart.
Proof.
  intros Hpos. rewrite updateQuantity_unfold. apply filter_keep_all.
  intros j Hj. apply list_elem_of_In, in_map_iff in Hj as (i & <- & Hi).
  apply Z.ltb_lt, Hpos. by apply list_elem_of_In.
Qed.

Lemma updateQuantity_absent x d cart :
  positive_quantities cart → ¬ has_line x cart →
  updateQuantity x d cart = cart.
Proof.
  intros Hp Hno. rewrite updateQuantity_all_kept.
  - by apply map_bump_absent.
  - intros i Hi. rewrite bump_other.
    + by apply (proj1 (Forall_forall _ _) Hp).
    + intros Hid. apply Hno. by exists i.
Qed.

Lemma bump_bump x a b i : bump x b (bump x a i) = bump x (a + b) i.
Proof.
  destruct (decide (id i = x)) as [He|Hne].
  - rewrite (bump_same x a i He), (bump_same x (a + b) i He).
    rewrite (bump_same x b (with_quantity i (quantity i + a)) He). simpl.
    unfold with_quantity. f_equal. lia.
  - by rewrite (bump_other x a i Hne), (bump_other x b i Hne),
      (bump_other x (a + b) i Hne).
Qed.

Lemma bump_zero x i : bump x 0 i = i.
Proof.
  destruct (decide (id i = x)) as [He|Hne]; [| by apply bump_other].
  rewrite bump_same by done. destruct i as [m q]. unfold with_quantity. simpl.
  f_equal. lia.
Qed.

Lemma quantity_sum_app cart1 cart2 :
  quantity_sum (cart1 ++ cart2) = quantity_sum cart1 + quantity_sum cart2.
Proof. induction cart1 as [|i rest IH]; simpl; lia. Qed.

Lemma cartCount_sum cart : cartCount cart = quantity_sum cart.
Proof. unfold cartCount. rewrite cartCount_from. lia. Qed.

Lemma distinct_ids_cons i cart :
  distinct_ids (i :: cart) → ¬ has_line (id i) cart ∧ distinct_ids cart.
Proof.
  unfold distinct_ids. simpl. intros Hd. apply NoDup_cons in Hd as [Hi Hd].
  split; [| done]. intros Hl. by apply Hi, has_line_ids.
Qed.

Lemma positive_quantities_cons i cart :
  positive_quantities (i :: cart) → 0 < quantity i ∧ positive_quantities cart.
Proof. intros Hp. by apply Forall_cons in Hp. Qed.

Lemma updateQuantity_kept x a cart :
  positive_quantities cart →
  (∀ i, i ∈ cart → id i = x → 0 < quantity i + a) →
  updateQuantity x a cart = map (bump x a) cart.
Proof.
  intros Hp Hkeep. apply updateQuantity_all_kept. intros i Hi.
  destruct (decide (id i = x)) as [He|Hne].
  - rewrite bump_same by done. simpl. by apply Hkeep.
  - rewrite bump_other by done. by apply (proj1 (Forall_forall _ _) Hp).
Qed.

Lemma updateQuantity_after_bump x a c cart :
  updateQuantity x c (map (bump x a) cart) = updateQuantity x (a + c) cart.
Proof.
  rewrite !updateQuantity_unfold, map_map. f_equal.
  apply map_ext. intros i. apply bump_bump.
Qed.

Lemma updateQuantity_zero x cart :
  positive_quantities cart → updateQuantity x 0 cart = cart.
Proof.
  intros Hp. rewrite updateQuantity_all_kept.
  - rewrite <- (map_id cart) at 2. apply map_ext. intros i. apply bump_zero.
  - intros i Hi. rewrite bump_zero. by apply (proj1 (Forall_forall _ _) Hp).
Qed.

End CartAlgebra.

(** X1: on a cart whose lines have positive quantities, two changes of
    the same item's quantity add up as long as the first one removes no
    line, and a change by 0 changes nothing.  So one press of plus
    followed by one press of minus gives the cart back. *)
Theorem X1_quantity_changes_add_up (cart : list CartItem) (x : string)
    (a b : Z) :
  positive_quantities cart →
  (∀ i : CartItem, i ∈ cart → id i = x → 0 < quantity i + a) →
  updateQuantity x b (updateQuantity x a cart) = updateQuantity x (a + b) cart
  ∧ updateQuantity x 0 cart = cart
  ∧ updateQuantity x (- a) (updateQuantity x a cart) = cart.
Proof.
  intros Hp Hkeep.
  rewrite (updateQuantity_kept x a cart Hp Hkeep).
  rewrite !updateQuantity_after_bump.
  split; [done |]. split; [by apply updateQuantity_zero |].
  replace (a + - a) with 0 by lia. by apply updateQuantity_zero.
Qed.

(** X2: on a cart whose lines have positive quantities, adding an item
    and then lowering its quantity by one gives the cart back, whether the
    item had a line before or not. *)
Theorem X2_add_then_minus_restores (cart : list CartItem) (item : MenuItem) :
  positive_quantities cart →
  updateQuantity (id item) (-1) (addToCart item cart) = cart.
Proof.
  intros Hp. destruct (has_line_dec (id item) cart) as [Hl|Hl].
  - rewrite addToCart_existing by done.
    rewrite updateQuantity_unfold, map_map.
    rewrite (map_ext _ (bump (id item) 0)).
    + rewrite <- updateQuantity_unfold. by apply updateQuantity_zero.
    + intros i. apply bump_bump.
  - rewrite addToCart_new by done.
    rewrite updateQuantity_unfold, map_app, List.filter_app.
    rewrite <- updateQuantity_unfold, updateQuantity_absent by done.
    simpl. rewrite (bump_same (id item) (-1) (with_quantity item 1) eq_refl).
    simpl. apply app_nil_r.
Qed.

Lemma quantity_sum_updateQuantity (cart : list CartItem) (x : string)
    (d : Z) (i : CartItem) :
  positive_quantities cart → distinct_ids cart → i ∈ cart → id i = x →
  quantity_sum (updateQuantity x d cart)
  = quantity_sum cart + Z.max d (- quantity i).
Proof.
  induction cart as [|c rest IH]; intros Hp Hd Hi Hid.
  - by apply not_elem_of_nil in Hi.
  - apply positive_quantities_cons in Hp as [Hc Hp].
    apply distinct_ids_cons in Hd as [Hfresh Hd].
    rewrite updateQuantity_cons.
    apply elem_of_cons in Hi as [->|Hi].
    + rewrite bump_same by done. simpl.
      rewrite updateQuantity_absent by (by rewrite <- ?Hid).
      destruct (0 <? quantity c + d) eqn:Hq; simpl.
      * apply Z.ltb_lt in Hq. lia.
      * apply Z.ltb_ge in Hq. lia.
    + assert (id c ≠ x) as Hne.
      { intros He. apply Hfresh. exists i. split; [done | congruence]. }
      rewrite bump_other by done.
      rewrite (proj2 (Z.ltb_lt _ _) Hc). simpl. rewrite IH by done. lia.
Qed.

(** X3: on a cart with positive quantities and distinct item ids, the
    count shown on the cart button follows the operations: addToCart
    raises it by one; a quantity change by d moves it by d, or takes the
    line's whole quantity off when the line drops out; a change for an
    item that has no line leaves it as it is. *)
Theorem X3_count_follows_operations (cart : list CartItem)
    (item : MenuItem) (x : string) (d : Z) :
  positive_quantities cart → distinct_ids cart →
  cartCount (addToCart item cart) = cartCount cart + 1
  ∧ (∀ i : CartItem, i ∈ cart → id i = x →
       cartCount (updateQuantity x d cart)
       = cartCount cart + Z.max d (- quantity i))
  ∧ (¬ has_line x cart →
     cartCount (updateQuantity x d cart) = cartCount cart).
Proof.
  intros Hp Hd. rewrite !cartCount_sum. split; [| split].
  - destruct (has_line_dec (id item) cart) as [Hl|Hl].
    + rewrite addToCart_existing by done.
      destruct Hl as (i & Hi & Hid).
      rewrite <- (updateQuantity_kept (id item) 1 cart Hp).
      * rewrite (quantity_sum_updateQuantity cart (id item) 1 i) by done.
        pose proof (proj1 (Forall_forall _ _) Hp i Hi) as Hq. simpl in Hq. lia.
      * intros j Hj _.
        pose proof (proj1 (Forall_forall _ _) Hp j Hj) as Hq. simpl in Hq. lia.
    + rewrite addToCart_new by done. rewrite quantity_sum_app. simpl. lia.
  - intros i Hi Hid. by apply quantity_sum_updateQuantity.
  - intros Hno. by rewrite updateQuantity_absent.
Qed.

(** The sample cart: one more Spring Rolls, or one Chicken Wings fewer. *)
Lemma X3_witness :
  cartCount (addToCart Sample.spring_rolls Sample.cart)
  = cartCount Sample.cart + 1
  ∧ (∀ i : CartItem, i ∈ Sample.cart → id i = id Sample.chicken_wings →
       cartCount (updateQuantity (id Sample.chicken_wings) (-1) Sample.cart)
       = cartCount Sample.cart + Z.max (-1) (- quantity i))
  ∧ (¬ has_line (id Sample.chicken_wings) Sample.cart →
     cartCount (updateQuantity (id Sample.chicken_wings) (-1) Sample.cart)
     = cartCount Sample.cart).
Proof.
  apply (X3_count_follows_operations Sample.cart Sample.spring_rolls
           (id Sample.chicken_wings) (-1)).
  - repeat constructor.
  - unfold distinct_ids. simpl. apply NoDup_cons. split.
    + intros H. apply list_elem_of_singleton in H. discriminate H.
    + apply NoDup_singleton.
Defined.

(** Raising Spring Rolls in the sample cart by one, then lowering. *)
Lemma X1_witness :
  updateQuantity (id Sample.spring_rolls) (-1)
    (updateQuantity (id Sample.spring_rolls) 1 Sample.cart)
  = updateQuantity (id Sample.spring_rolls) (1 + -1) Sample.cart
  ∧ updateQuantity (id Sample.spring_rolls) 0 Sample.cart = Sample.cart
  ∧ updateQuantity (id Sample.spring_rolls) (- 1)
      (updateQuantity (id Sample.spring_rolls) 1 Sample.cart)
    = Sample.cart.
Proof.
  apply (X1_quantity_changes_add_up Sample.cart (id Sample.spring_rolls)
           1 (-1)).
  - repeat constructor.
  - intros i Hi _. simpl in Hi.
    apply elem_of_cons in Hi as [->|Hi]; [simpl; lia |].
    apply list_elem_of_singleton in Hi. subst i. simpl. lia.
Defined.

(** Adding Chicken Wings to the sample cart and taking one off again. *)
Lemma X2_witness :
  updateQuantity (id Sample.chicken_wings) (-1)
    (addToCart Sample.chicken_wings Sample.cart)
  = Sample.cart.
Proof.
  apply (X2_add_then_minus_restores Sample.cart Sample.chicken_wings).
  repeat constructor.
Defined.

(** X4: the checkout button opens the checkout page exactly when a
    branch is selected and the cart has a line, and then hands over this
    cart and this branch; without a branch the message asks for a
    branch, also when the cart is empty. *)
Theorem X4_handleCheckout_decides (selectedBranch : string)
    (cart : list CartItem) :
  (handleCheckout selectedBranch cart = NavigateCheckout cart selectedBranch
   ↔ selectedBranch ≠ EmptyString ∧ cart ≠ [])
  ∧ (∀ c b, handleCheckout selectedBranch cart = NavigateCheckout c b →
            c = cart ∧ b = selectedBranch)
  ∧ (handleCheckout selectedBranch cart = ToastSelectBranch
     ↔ selectedBranch = EmptyString)
  ∧ (handleCheckout selectedBranch cart = ToastCartEmpty
     ↔ selectedBranch ≠ EmptyString ∧ cart = []).
Proof.
  unfold handleCheckout.
  destruct (String.eqb_spec selectedBranch "") as [->|Hb];
    [| destruct cart as [|i rest]]; simpl.
  - intuition congruence.
  - intuition congruence.
  - intuition congruence.
Qed.

(** ** Checkout, further *)
Section CheckoutMore.
Import Store Checkout.

Implicit Types (st : Store) (cart : list CartItem) (a n : text).

Lemma trimStart_suffix_blank a :
  Forall (λ c, is_white_space c = true) (trimStart a) →
  Forall (λ c, is_white_space c = true) a.
Proof.
  induction a as [|c rest IH]; [done |]. simpl.
  destruct (is_white_space c) eqn:Hc; [| done].
  intros H. constructor; [done | by apply IH].
Qed.

Lemma trimStart_nil_blank a :
  trimStart a = [] → Forall (λ c, is_white_space c = true) a.
Proof. intros H. apply trimStart_suffix_blank. rewrite H. constructor. Qed.

Lemma trim_nil_blank a :
  trim a = [] → Forall (λ c, is_white_space c = true) a.
Proof.
  unfold trim, trimEnd. intros H.
  apply (f_equal (@rev N)) in H. rewrite rev_involutive in H. simpl in H.
  apply trimStart_nil_blank in H. apply Forall_rev in H.
  rewrite rev_involutive in H. by apply trimStart_suffix_blank.
Qed.

(** What [handlePlaceOrder] leaves in the two tables it writes. *)
Lemma handlePlaceOrder_tables session new_id cart b ot a n st :
  let r := handlePlaceOrder session new_id cart b ot a n st in
  r.2 = st
  ∨ ∃ uid, session = Some uid ∧ orders st !! new_id = None
    ∧ orders r.2 = <[new_id := order_payload uid b cart ot a n]> (orders st)
    ∧ (ordered_items r.2 = ordered_items st
       ∨ ordered_items r.2 = ordered_items st ++ orderItems new_id cart
         ∧ first_error (add_order new_id (order_payload uid b cart ot a n) st)
             uid (orderItems new_id cart) = None).
Proof.
  simpl. unfold handlePlaceOrder.
  destruct (bool_decide (ot = delivery) && falsy (trim a)); [by left |].
  destruct session as [uid|]; [| by left].
  destruct (insert_order uid new_id _ st) as [e|[k st1]] eqn:Hins; [by left |].
  apply insert_order_inr in Hins as (-> & Hfresh & _ & ->).
  right. exists uid. split; [done |]. split; [done |].
  unfold insert_items.
  destruct (first_error _ uid _) eqn:Herr; simpl; [by split; [| left] |].
  split; [done |]. by right.
Qed.

Lemma first_error_None st uid rows r :
  first_error st uid rows = None → r ∈ rows →
  (0 <? Store.quantity r) = true ∧ items_insert_policy st uid r = true.
Proof.
  induction rows as [|r' rest IH]; intros Hf Hin.
  - by apply not_elem_of_nil in Hin.
  - simpl in Hf. destruct (item_row_error st uid r') eqn:Hr'; [done |].
    apply elem_of_cons in Hin as [->|Hin]; [| by apply IH].
    unfold item_row_error, item_row_check in Hr'.
    destruct (negb (uuid_ok (order_id r') && uuid_ok (menu_id r'))); [done |].
    destruct (0 <? Store.quantity r'); [| done]. simpl in Hr'.
    destruct (items_insert_policy st uid r'); [done |].
    by destruct (match menu_id r' with Some _ => _ | None => _ end).
Qed.

End CheckoutMore.

(** X5: handlePlaceOrder asks for the delivery address exactly when the
    order type is delivery and the address is empty or all white space;
    for dine-in and takeaway it never does, whatever the address field
    holds. *)
Theorem X5_address_asked_exactly_when_blank (session : option string)
    (new_id : string) (cart : list CartItem) (branchId : string)
    (orderType : Store.OrderType) (deliveryAddress notes : Store.text)
    (st : Store.Store) :
  (Checkout.handlePlaceOrder session new_id cart branchId orderType
     deliveryAddress notes st).1 = Checkout.ToastEnterAddress
  ↔ orderType = Store.delivery
    ∧ Forall (λ c, Checkout.is_white_space c = true) deliveryAddress.
Proof.
  split.
  - intros Hr.
    destruct (handlePlaceOrder_cases session new_id cart branchId orderType
                deliveryAddress notes st)
      as [(Hot & Ha & _)|[_ [[_ H]|(uid & _ & [(e & _ & H)|(_ & _ & [[e H]|H])])]]];
      try (rewrite H in Hr; simpl in Hr; discriminate Hr).
    split; [done | by apply trim_nil_blank].
  - intros [-> Hblank]. unfold Checkout.handlePlaceOrder.
    by rewrite (trim_blank _ Hblank).
Qed.

(** X6: an order that handlePlaceOrder adds to the store is stored under
    the key the store drew, belongs to the signed-in user, is for the
    branch and the order type of the page and is pending; its address is
    the text of the field as typed, white space around it included, and
    its notes are null exactly when the notes field is empty.  (The
    amounts are left out: their columns keep two decimals of what is
    sent.) *)
Theorem X6_created_order (session : option string) (new_id : string)
    (cart : list CartItem) (branchId : string)
    (orderType : Store.OrderType) (deliveryAddress notes : Store.text)
    (st : Store.Store) (k : string) (o : Store.OrderRow) :
  Store.orders st !! k = None →
  Store.orders
    (Checkout.handlePlaceOrder session new_id cart branchId orderType
       deliveryAddress notes st).2 !! k = Some o →
  k = new_id
  ∧ Store.user_id o = session
  ∧ Store.branch_id o = Some branchId
  ∧ Store.order_type o = orderType
  ∧ Store.status o = Store.pending
  ∧ (orderType = Store.delivery →
     Store.delivery_address o = Some deliveryAddress)
  ∧ (Store.notes o = None ↔ notes = [])
  ∧ (notes ≠ [] → Store.notes o = Some notes).
Proof.
  intros Hold Hnew.
  destruct (handlePlaceOrder_tables session new_id cart branchId orderType
              deliveryAddress notes st)
    as [Hsame|(uid & -> & Hfresh & Ho & _)].
  - rewrite Hsame in Hnew. congruence.
  - rewrite Ho in Hnew. destruct (decide (new_id = k)) as [->|Hne].
    + rewrite lookup_insert_eq in Hnew. inversion Hnew; subst o. simpl.
      repeat split; try done.
      * intros ->. by rewrite bool_decide_eq_true_2.
      * by destruct notes.
      * by intros ->.
      * by destruct notes.
    + rewrite lookup_insert_ne in Hnew by done. congruence.
Qed.

(** The sample delivery order, as stored. *)
Lemma X6_witness :
  Store.user_id
    (Checkout.order_payload Sample.customer Sample.downtown Sample.cart
       Store.delivery Sample.home []) = Some Sample.customer
  ∧ Store.status
      (Checkout.order_payload Sample.customer Sample.downtown Sample.cart
         Store.delivery Sample.home []) = Store.pending
  ∧ Store.delivery_address
      (Checkout.order_payload Sample.customer Sample.downtown Sample.cart
         Store.delivery Sample.home []) = Some Sample.home.
Proof.
  destruct (X6_created_order (Some Sample.customer) Sample.order1 Sample.cart
              Sample.downtown Store.delivery Sample.home []
              Sample.empty_store Sample.order1
              (Checkout.order_payload Sample.customer Sample.downtown
                 Sample.cart Store.delivery Sample.home []))
    as (_ & Hu & _ & _ & Hs & Ha & _).
  - reflexivity.
  - vm_compute. reflexivity.
  - split; [exact Hu |]. split; [exact Hs |]. apply Ha. reflexivity.
Defined.

(** ** The store, further *)
Section StoreMore.
Import Store Checkout Staff.

Implicit Types (st : Store) (o : OrderRow) (uid k : string).

Lemma first_update_error_passes st uid sel patch rows :
  (∀ k o, (k, o) ∈ rows → update_target st uid sel k o = true →
          new_row_error st uid (patch o) = None) →
  first_update_error st uid sel patch rows = None.
Proof.
  induction rows as [|[k o] rest IH]; intros Hok; [done |]. simpl.
  destruct (update_target st uid sel k o) eqn:Ht.
  - rewrite (Hok k o) by (done || by left). apply IH.
    intros k' o' Hin. apply Hok. by right.
  - apply IH. intros k' o' Hin. apply Hok. by right.
Qed.

Lemma first_update_error_checked st uid sel patch rows k o :
  first_update_error st uid sel patch rows = None →
  (k, o) ∈ rows → update_target st uid sel k o = true →
  orders_update_policy st uid (patch o) = true.
Proof.
  induction rows as [|[k' o'] rest IH]; intros Hf Hin Ht.
  - by apply not_elem_of_nil in Hin.
  - simpl in Hf. apply elem_of_cons in Hin as [Heq|Hin].
    + inversion Heq; subst k' o'. rewrite Ht in Hf.
      unfold new_row_error in Hf.
      destruct (order_row_check st (patch o)); [done |].
      by destruct (orders_update_policy st uid (patch o)).
    + destruct (if update_target st uid sel k' o' then _ else _); [done |].
      by apply IH.
Qed.

(** What an update that went through did to one row. *)
Lemma update_orders_row uid sel patch st st' k o :
  update_orders uid sel patch st = inr st' →
  orders st !! k = Some o →
  orders st' !! k = Some o
  ∨ sel k o = true
    ∧ orders_update_policy st uid o = true
    ∧ orders_update_policy st uid (patch o) = true
    ∧ orders st' !! k = Some (patch o).
Proof.
  intros Hu Hk. rewrite (update_orders_lookup _ _ _ _ _ k Hu), Hk. simpl.
  destruct (update_target st uid sel k o) eqn:Ht; [| by left]. right.
  pose proof Ht as Ht'. unfold update_target in Ht'.
  apply andb_true_iff in Ht' as [Hsel Hpol].
  split; [done |]. split; [done |]. split; [| done].
  unfold update_orders in Hu.
  destruct (first_update_error _ _ _ _ _) eqn:Hf; [done |].
  eapply first_update_error_checked; [exact Hf | | exact Ht].
  by apply elem_of_map_to_list.
Qed.

Lemma update_orders_rest uid sel patch st st' :
  update_orders uid sel patch st = inr st' →
  ordered_items st' = ordered_items st ∧ menu st' = menu st
  ∧ staff st' = staff st ∧ branches st' = branches st.
Proof.
  unfold update_orders. destruct (first_update_error _ _ _ _ _); [done |].
  by inversion 1.
Qed.

Lemma updateOrderStatus_items uid k v st :
  ordered_items (updateOrderStatus uid k v st).2 = ordered_items st.
Proof.
  unfold updateOrderStatus.
  destruct (update_orders uid _ _ st) as [e|st'] eqn:Hu; [done |].
  by apply update_orders_rest in Hu as [? _].
Qed.

Lemma order_row_check_set_status st v o :
  order_row_check st (set_status v o) = order_row_check st o.
Proof. done. Qed.

(** The status change of a member of the order's branch goes through. *)
Lemma staff_update_goes_through uid k v st o :
  orders st !! k = Some o →
  staff_of_branch st uid (branch_id o) = true →
  order_row_check st o = None →
  ∃ st', update_orders uid (λ k' _, String.eqb k' k) (set_status v) st
         = inr st'
         ∧ orders st' !! k = Some (set_status v o)
         ∧ (∀ k', k' ≠ k → orders st' !! k' = orders st !! k').
Proof.
  intros Hk Hb Hcheck.
  destruct (update_orders uid _ (set_status v) st) as [e|st'] eqn:Hu.
  - exfalso. unfold update_orders in Hu.
    rewrite first_update_error_passes in Hu; [done |].
    intros k' o' Hin Ht. apply elem_of_map_to_list in Hin.
    unfold update_target in Ht. apply andb_true_iff in Ht as [Hsel _].
    apply String.eqb_eq in Hsel. subst k'. rewrite Hk in Hin.
    inversion Hin; subst o'. unfold new_row_error.
    rewrite order_row_check_set_status, Hcheck.
    unfold orders_update_policy. simpl. rewrite Hb. by rewrite orb_true_r.
  - exists st'. split; [done |]. split.
    + rewrite (update_orders_lookup _ _ _ _ _ k Hu), Hk. simpl.
      unfold update_target, orders_update_policy.
      by rewrite String.eqb_refl, Hb, orb_true_r.
    + intros k' Hne. rewrite (update_orders_lookup _ _ _ _ _ k' Hu).
      destruct (orders st !! k') as [o'|]; [| done]. simpl.
      unfold update_target.
      by rewrite (proj2 (String.eqb_neq _ _) Hne).
Qed.

End StoreMore.

(** X7: every step of the system (a checkout, a fetch, a status change
    from a dashboard) keeps the line items sound: each row of
    ordered_items still belongs to an order of the store, and each has a
    positive quantity. *)
Theorem X7_steps_keep_items_sound (s s' : System.State) :
  System.step s s' →
  Store.items_reference_orders (System.store s) →
  (∀ r, r ∈ Store.ordered_items (System.store s) → 0 < Store.quantity r) →
  Store.items_reference_orders (System.store s')
  ∧ (∀ r, r ∈ Store.ordered_items (System.store s') → 0 < Store.quantity r).
Proof.
  intros Hstep Href Hpos.
  destruct Hstep as [s session new_id cart b ot a n|s uid b|s uid k o v Hin Hv];
    simpl; [| done |].
  - destruct (handlePlaceOrder_tables session new_id cart b ot a n
                (System.store s))
      as [Hsame|(uid & _ & Hfresh & Ho & Hitems)]; simpl in *.
    { by rewrite Hsame. }
    assert (∀ oid, is_Some (Store.orders (System.store s) !! oid) →
                   is_Some (Store.orders
                     (Checkout.handlePlaceOrder session new_id cart b ot a n
                        (System.store s)).2 !! oid)) as Hmono.
    { intros oid [o Hoid]. rewrite Ho.
      destruct (decide (new_id = oid)) as [->|Hne]; [congruence |].
      rewrite lookup_insert_ne by done. by exists o. }
    destruct Hitems as [Hi|[Hi Herr]].
    + split.
      * intros r oid Hr Hoid. rewrite Hi in Hr. by apply Hmono, (Href r).
      * intros r Hr. rewrite Hi in Hr. by apply Hpos.
    + split.
      * intros r oid Hr Hoid. rewrite Hi in Hr.
        apply elem_of_app in Hr as [Hr|Hr]; [by apply Hmono, (Href r) |].
        apply list_elem_of_In, in_map_iff in Hr as (i & <- & _).
        simpl in Hoid. inversion Hoid; subst oid.
        rewrite Ho, lookup_insert_eq. by eexists.
      * intros r Hr. rewrite Hi in Hr.
        apply elem_of_app in Hr as [Hr|Hr]; [by apply Hpos |].
        apply (first_error_None _ _ _ r Herr) in Hr as [Hq _].
        by apply Z.ltb_lt.
  - rewrite updateOrderStatus_items. split; [| done].
    intros r oid Hr Hoid. rewrite updateOrderStatus_items in Hr.
    destruct (Href r oid Hr Hoid) as [o' Ho'].
    destruct (updateOrderStatus_lookup uid k v (System.store s) oid)
      as [Hsame|(-> & o1 & _ & Hnew)].
    + rewrite Hsame. by exists o'.
    + rewrite Hnew. by eexists.
Qed.

(** The sample store, and the customer checking the sample cart out. *)
Lemma X7_witness :
  Store.items_reference_orders Sample.store_with_dine_in
  ∧ (∀ r, r ∈ Store.ordered_items Sample.store_with_dine_in →
          0 < Store.quantity r).
Proof.
  apply (X7_steps_keep_items_sound
           {| System.store := Sample.empty_store; System.fetched := [] |}
           {| System.store := Sample.store_with_dine_in;
              System.fetched := [] |}).
  - apply (System.customer_places_order
             {| System.store := Sample.empty_store; System.fetched := [] |}
             (Some Sample.customer) Sample.order1 Sample.cart
             Sample.downtown Store.dine_in [] []).
  - intros r oid Hr. simpl in Hr. inversion Hr.
  - intros r Hr. simpl in Hr. inversion Hr.
Defined.



(** X9: a user with no staff assignment cannot change the status of any
    order by an update, not even to cancel an own pending order: whatever
    update of theirs goes through, every order keeps its status, and a row
    it changed was their own pending order and still is. *)
Theorem X9_customer_update_keeps_status (uid : string)
    (sel : string → Store.OrderRow → bool)
    (patch : Store.OrderRow → Store.OrderRow) (st st' : Store.Store)
    (k : string) (o o' : Store.OrderRow) :
  Store.staff st !! uid = None →
  Store.update_orders uid sel patch st = inr st' →
  Store.orders st !! k = Some o →
  Store.orders st' !! k = Some o' →
  Store.status o' = Store.status o
  ∧ (o' ≠ o →
     Store.user_id o = Some uid ∧ Store.user_id o' = Some uid
     ∧ Store.status o = Store.pending).
Proof.
  intros Hstaff Hu Hk Hk'.
  assert (∀ r, Store.orders_update_policy st uid r = true →
               Store.user_id r = Some uid ∧ Store.status r = Store.pending)
    as Hpol.
  { intros r. unfold Store.orders_update_policy, Store.staff_of_branch,
      Store.own.
    rewrite Hstaff, orb_false_r. intros H.
    apply andb_true_iff in H as [Hown Hpend].
    apply bool_decide_eq_true in Hpend.
    destruct (Store.user_id r) as [u|]; [| done].
    apply String.eqb_eq in Hown. by subst u. }
  destruct (update_orders_row uid sel patch st st' k o Hu Hk)
    as [Hsame|(_ & Hold & Hnew & Hpatched)].
  - rewrite Hsame in Hk'. inversion Hk'; subst o'. done.
  - rewrite Hpatched in Hk'. inversion Hk'; subst o'.
    destruct (Hpol o Hold) as [Hu1 Hs1]. destruct (Hpol _ Hnew) as [Hu2 Hs2].
    split; [congruence | done].
Qed.

(** The customer edits the notes of the pending sample order. *)
Lemma X9_witness :
  Store.status
    (Checkout.order_payload Sample.customer Sample.downtown Sample.cart
       Store.dine_in [] Sample.home)
  = Store.status
      (Checkout.order_payload Sample.customer Sample.downtown Sample.cart
         Store.dine_in [] []).
Proof.
  apply (X9_customer_update_keeps_status Sample.customer (λ _ _, true)
           (λ _, Checkout.order_payload Sample.customer Sample.downtown
                   Sample.cart Store.dine_in [] Sample.home)
           Sample.store_with_dine_in
           (Store.set_orders Sample.store_with_dine_in
              (<[Sample.order1 :=
                   Checkout.order_payload Sample.customer Sample.downtown
                     Sample.cart Store.dine_in [] Sample.home]>
                 (Store.orders Sample.store_with_dine_in)))
           Sample.order1).
  - vm_compute. reflexivity.
  - vm_compute. reflexivity.
  - vm_compute. reflexivity.
  - vm_compute. reflexivity.
Defined.

(** X10: updateOrderStatus on an order id that is not in the store, or on
    an order the update policies hide from the user, changes nothing and
    still shows the message that the status was updated. *)
Theorem X10_status_toast_without_change (uid k : string)
    (v : Store.OrderStatus) (st : Store.Store) :
  (∀ o, Store.orders st !! k = Some o →
        Store.orders_update_policy st uid o = false) →
  Staff.updateOrderStatus uid k v st = (Staff.ToastStatusUpdated, st).
Proof.
  intros Hhid. unfold Staff.updateOrderStatus.
  rewrite update_orders_no_target; [done |].
  intros k' o' Hk'. unfold Store.update_target.
  destruct (String.eqb_spec k' k) as [->|Hne]; [| done].
  by rewrite (Hhid o' Hk').
Qed.

(** An order id the sample store does not hold. *)
Lemma X10_witness :
  Staff.updateOrderStatus Sample.waiter Sample.downtown Store.ready
    Sample.store_with_dine_in
  = (Staff.ToastStatusUpdated, Sample.store_with_dine_in).
Proof.
  apply (X10_status_toast_without_change Sample.waiter Sample.downtown
           Store.ready Sample.store_with_dine_in).
  intros o Ho. vm_compute in Ho. discriminate Ho.
Defined.

(** X11: for a member of the staff of the order's branch, updateOrderStatus
    on a stored order with a valid branch goes through for every status:
    the order then has that status, and the user, branch, order type,
    amounts, address and notes it had; every other order and every line
    item is as before.  (The time of the last update, which a trigger
    sets anew on every update, is not among the columns of a row here.) *)
Theorem X11_staff_sets_status (uid k : string) (v : Store.OrderStatus)
    (st : Store.Store) (o : Store.OrderRow) :
  Store.orders st !! k = Some o →
  Store.staff_of_branch st uid (Store.branch_id o) = true →
  Store.order_row_check st o = None →
  (Staff.updateOrderStatus uid k v st).1 = Staff.ToastStatusUpdated
  ∧ (∃ o', Store.orders (Staff.updateOrderStatus uid k v st).2 !! k = Some o'
           ∧ Store.status o' = v
           ∧ Store.user_id o' = Store.user_id o
           ∧ Store.branch_id o' = Store.branch_id o
           ∧ Store.order_type o' = Store.order_type o
           ∧ Store.tax o' = Store.tax o
           ∧ Store.tip o' = Store.tip o
           ∧ Store.delivery_fee o' = Store.delivery_fee o
           ∧ Store.total o' = Store.total o
           ∧ Store.delivery_address o' = Store.delivery_address o
           ∧ Store.notes o' = Store.notes o)
  ∧ (∀ k', k' ≠ k →
       Store.orders (Staff.updateOrderStatus uid k v st).2 !! k'
       = Store.orders st !! k')
  ∧ Store.ordered_items (Staff.updateOrderStatus uid k v st).2
    = Store.ordered_items st.
Proof.
  intros Hk Hb Hcheck.
  destruct (staff_update_goes_through uid k v st o Hk Hb Hcheck)
    as (st' & Hu & Hset & Hrest).
  pose proof (updateOrderStatus_items uid k v st) as Hitems.
  unfold Staff.updateOrderStatus in *. rewrite Hu in *. simpl in *.
  split; [done |]. split; [| by split].
  exists (Staff.set_status v o). by repeat split.
Qed.

(** The waiter sets the sample order to ready. *)
Lemma X11_witness :
  Store.status <$>
    Store.orders
      (Staff.updateOrderStatus Sample.waiter Sample.order1 Store.ready
         Sample.store_with_dine_in).2 !! Sample.order1
  = Some Store.ready.
Proof.
  destruct (X11_staff_sets_status Sample.waiter Sample.order1 Store.ready
              Sample.store_with_dine_in
              (Checkout.order_payload Sample.customer Sample.downtown
                 Sample.cart Store.dine_in [] []))
    as (_ & (o' & Hset & Hstatus & _) & _).
  - vm_compute. reflexivity.
  - vm_compute. reflexivity.
  - vm_compute. reflexivity.
  - rewrite Hset. simpl. by rewrite Hstatus.
Defined.

(** ** The two order lists *)
Section ListsMore.
Import Store Checkout Staff.

Implicit Types (st : Store) (o : OrderRow) (uid k b : string).

Lemma staff_of_branch_own st uid b :
  staff st !! uid = Some b → staff_of_branch st uid (Some b) = true.
Proof.
  intros Hs. unfold staff_of_branch. rewrite Hs. apply String.eqb_refl.
Qed.

(** What the dashboard of a member of branch [b] lists. *)
Lemma fetchOrders_listed uid b st shown k o :
  b ≠ EmptyString → staff st !! uid = Some b →
  (k, o) ∈ Staff.fetchOrders uid b st shown
  ↔ orders st !! k = Some o ∧ branch_id o = Some b
    ∧ status o ≠ delivered ∧ status o ≠ cancelled.
Proof.
  intros Hb Hs. unfold Staff.fetchOrders.
  rewrite (proj2 (String.eqb_neq _ _) Hb).
  rewrite list_elem_of_In, filter_In, <- list_elem_of_In, elem_of_map_to_list.
  simpl. rewrite !andb_true_iff, !negb_true_iff.
  rewrite bool_decide_eq_true, !bool_decide_eq_false.
  split.
  - intros (Hk & ((_ & Hbr) & Hd) & Hc). done.
  - intros (Hk & Hbr & Hd & Hc). repeat split; try done.
    unfold orders_select_policy. rewrite Hbr.
    by rewrite (staff_of_branch_own st uid b Hs), orb_true_r.
Qed.

End ListsMore.

(** X12: the dashboard of a staff member assigned to a branch lists
    exactly the orders of that branch that are neither delivered nor
    cancelled, each once; a dashboard without a branch keeps the list it
    has; and no dashboard ever lists an order of another branch or one the
    select policies hide from its user. *)
Theorem X12_dashboard_lists_open_orders (uid b : string)
    (st : Store.Store) (shown : list (string * Store.OrderRow)) :
  (b ≠ EmptyString → Store.staff st !! uid = Some b →
   ∀ k o, (k, o) ∈ Staff.fetchOrders uid b st shown
          ↔ Store.orders st !! k = Some o ∧ Store.branch_id o = Some b
            ∧ Store.status o ≠ Store.delivered
            ∧ Store.status o ≠ Store.cancelled)
  ∧ (b ≠ EmptyString → NoDup (Staff.fetchOrders uid b st shown).*1)
  ∧ Staff.fetchOrders uid EmptyString st shown = shown
  ∧ (b ≠ EmptyString →
     ∀ k o, (k, o) ∈ Staff.fetchOrders uid b st shown →
            Store.branch_id o = Some b
            ∧ Store.orders_select_policy st uid o = true).
Proof.
  split; [| split; [| split]].
  - intros Hb Hs k o. by apply fetchOrders_listed.
  - intros Hb. unfold Staff.fetchOrders.
    rewrite (proj2 (String.eqb_neq _ _) Hb).
    apply (sublist_NoDup _ (map_to_list (Store.orders st)).*1);
      [apply NoDup_fst_map_to_list |].
    apply fmap_sublist. induction (map_to_list (Store.orders st)) as [|x l IH];
      simpl; [constructor |].
    destruct (_ && _); by constructor.
  - done.
  - intros Hb k o Hin. unfold Staff.fetchOrders in Hin.
    rewrite (proj2 (String.eqb_neq _ _) Hb) in Hin.
    apply list_elem_of_In, filter_In in Hin as [_ Hf]. simpl in Hf.
    rewrite !andb_true_iff in Hf. destruct Hf as [[[Hp Hbr] _] _].
    by apply bool_decide_eq_true in Hbr.
Qed.



(** X14: for an order that a checkout has placed, fetchOrders of the
    order list gets a row for the customer who placed it, and
    fetchOrders of the dashboard gets that same row for every staff
    member assigned to its branch: a pending order of that customer, for
    that branch and of the chosen type; fetchOrders for another branch
    gets no row of that order.  (This is about the rows fetched, not
    about what the pages then draw.) *)
Theorem X14_placed_order_is_listed (uid new_id branchId : string)
    (cart : list CartItem) (orderType : Store.OrderType)
    (deliveryAddress notes : Store.text) (st st' : Store.Store)
    (oid : string) :
  Checkout.handlePlaceOrder (Some uid) new_id cart branchId orderType
    deliveryAddress notes st = (Checkout.ToastOrderPlaced oid, st') →
  (∃ o, Store.user_id o = Some uid
        ∧ Store.branch_id o = Some branchId
        ∧ Store.order_type o = orderType
        ∧ Store.status o = Store.pending
        ∧ (oid, o) ∈ Orders.fetchOrders uid st'
        ∧ (∀ member shown, Store.staff st !! member = Some branchId →
             (oid, o) ∈ Staff.fetchOrders member branchId st' shown))
  ∧ (∀ member b shown o, b ≠ EmptyString → b ≠ branchId →
       (oid, o) ∉ Staff.fetchOrders member b st' shown).
Proof.
  intros Hplaced.
  destruct (handlePlaceOrder_cases (Some uid) new_id cart branchId orderType
              deliveryAddress notes st)
    as [(_ & _ & Hr)|[_ [[_ Hr]|(uid' & Hs & [(e & _ & Hr)|(Hfresh & Hcheck & [[e Hr]|Hr])])]]];
    rewrite Hr in Hplaced; try done.
  inversion Hs; subst uid'. inversion Hplaced; subst oid st'.
  clear Hplaced Hr Hs.
  assert (branchId ≠ EmptyString) as Hb.
  { intros ->. unfold Store.order_row_check in Hcheck. simpl in Hcheck.
    by rewrite andb_false_r in Hcheck. }
  split;
    [exists (Checkout.order_payload uid branchId cart orderType
               deliveryAddress notes);
     split; [done |]; split; [done |]; split; [done |]; split; [done |];
     split |].
  - unfold Orders.fetchOrders.
    apply list_elem_of_In, filter_In. split.
    + apply list_elem_of_In, elem_of_map_to_list. simpl.
      apply lookup_insert_eq.
    + simpl. unfold Store.orders_select_policy, Store.own. simpl.
      by rewrite String.eqb_refl.
  - intros member shown Hm.
    apply fetchOrders_listed; [done | done |]. simpl.
    rewrite lookup_insert_eq. done.
  - intros member b shown o Hb' Hne Hin. unfold Staff.fetchOrders in Hin.
    rewrite (proj2 (String.eqb_neq _ _) Hb') in Hin.
    apply list_elem_of_In, filter_In in Hin as [Hin Hf].
    apply list_elem_of_In, elem_of_map_to_list in Hin. simpl in Hin, Hf.
    rewrite lookup_insert_eq in Hin. inversion Hin; subst o. simpl in Hf.
    rewrite !andb_true_iff in Hf. destruct Hf as [[[_ Hbr] _] _].
    apply bool_decide_eq_true in Hbr. congruence.
Qed.

(** The sample order, among the rows fetched for its customer. *)
Lemma X14_witness :
  ∃ o, Store.status o = Store.pending
       ∧ (Sample.order1, o)
           ∈ Orders.fetchOrders Sample.customer Sample.store_with_dine_in.
Proof.
  assert (Checkout.handlePlaceOrder (Some Sample.customer) Sample.order1
            Sample.cart Sample.downtown Store.dine_in [] []
            Sample.empty_store
          = (Checkout.ToastOrderPlaced Sample.order1,
             Sample.store_with_dine_in)) as Hplaced.
  { vm_compute. reflexivity. }
  destruct (X14_placed_order_is_listed Sample.customer Sample.order1
              Sample.downtown Sample.cart Store.dine_in [] []
              Sample.empty_store Sample.store_with_dine_in
              Sample.order1 Hplaced)
    as [(o & _ & _ & _ & Hstatus & Hlisted & _) _].
  exists o. split; [exact Hstatus | exact Hlisted].
Defined.

(** ** Badges, guards and roles *)

(** X15: in the customer's list every status has a colour of its own
    kind, never the fallback; on the dashboard the fallback is the colour
    of delivered and cancelled only, so no order a dashboard lists after a
    fetch gets it, and the listed orders have the colour they have in the
    customer's list. *)
Theorem X15_badge_colours (s : Store.OrderStatus) :
  Badge.getStatusColor Badge.orders_colors s ≠ "bg-muted"%string
  ∧ (Badge.getStatusColor Badge.staff_colors s = "bg-muted"%string
     ↔ s = Store.delivered ∨ s = Store.cancelled)
  ∧ (∀ uid b st k o, b ≠ EmptyString →
       (k, o) ∈ Staff.fetchOrders uid b st [] →
       Badge.getStatusColor Badge.staff_colors (Store.status o)
       ≠ "bg-muted"%string
       ∧ Badge.getStatusColor Badge.staff_colors (Store.status o)
         = Badge.getStatusColor Badge.orders_colors (Store.status o)).
Proof.
  split; [| split].
  - destruct s; vm_compute; discriminate.
  - destruct s; vm_compute; intuition discriminate.
  - intros uid b st k o Hb Hin. unfold Staff.fetchOrders in Hin.
    rewrite (proj2 (String.eqb_neq _ _) Hb) in Hin.
    apply list_elem_of_In, filter_In in Hin as [_ Hf]. simpl in Hf.
    rewrite !andb_true_iff, !negb_true_iff in Hf.
    destruct Hf as [[_ Hd] Hc].
    apply bool_decide_eq_false in Hd, Hc.
    destruct (Store.status o); try done; split; vm_compute;
      (discriminate || reflexivity).
Qed.

(** X16: the guards of the pages agree.  A signed-in visitor is kept by
    exactly one of the menu page and the dashboard, the dashboard when the
    profile says staff and the menu page otherwise, also without a profile
    row; so from any page, and wherever the sign-in sent the visitor, the
    redirects end after at most two hops on that page.  A visitor without
    a session ends on the sign-in page. *)
Theorem X16_guards_agree (session : option string)
    (profile : option Account.user_type) (st : Store.Store)
    (r : Account.Route) (hasStaffRole : bool) :
  let home :=
    match session with
    | None => Account.RouteAuth
    | Some _ =>
        if Account.is_staff_profile profile
        then Account.RouteStaff else Account.RouteMenu
    end in
  Account.settle session profile st
    (Account.settle session profile st r) = home
  ∧ Account.settle session profile st home = home
  ∧ Account.settle session profile st (Account.after_login hasStaffRole)
    = match session with
      | None => Account.RouteAuth
      | Some _ => home
      end
  ∧ (∀ uid, session = Some uid →
       (Account.checkAuth session profile = None
        ↔ Account.checkStaffAuth session profile st
          = Account.Redirect Account.RouteMenu)).
Proof.
  unfold Account.settle, Account.checkStaffAuth, Account.checkAuth,
    Account.authRedirect, Account.after_login.
  destruct session as [uid|]; [| by destruct r, hasStaffRole].
  destruct (Store.staff st !! uid) as [b|]; [destruct (String.eqb b "") |];
    destruct profile as [[|]|], r, hasStaffRole; simpl;
    intuition congruence.
Qed.

Section RolesFacts.
Import Account.

Implicit Types (roles : list (string * app_role))
  (profiles : list (string * user_type)) (u : string) (r : app_role).

Lemma has_role_elem roles u r : has_role roles u r = true ↔ (u, r) ∈ roles.
Proof.
  unfold has_role. rewrite existsb_exists. split.
  - intros ([u' r'] & Hin & Hm). simpl in Hm.
    apply andb_true_iff in Hm as [Hu Hr].
    apply String.eqb_eq in Hu. apply bool_decide_eq_true in Hr. subst.
    by apply list_elem_of_In.
  - intros Hin. exists (u, r). split; [by apply list_elem_of_In |]. simpl.
    by rewrite String.eqb_refl, bool_decide_eq_true_2.
Qed.

Lemma insert_role_elem roles x y : y ∈ insert_role x roles ↔ y ∈ roles ∨ y = x.
Proof.
  unfold insert_role. destruct (has_role roles x.1 x.2) eqn:Hh.
  - apply has_role_elem in Hh. destruct x as [u r]. simpl in Hh.
    split; [by left | by intros [?| ->]].
  - rewrite elem_of_app, list_elem_of_singleton. done.
Qed.

Lemma insert_role_NoDup roles x : NoDup roles → NoDup (insert_role x roles).
Proof.
  intros Hd. unfold insert_role. destruct (has_role roles x.1 x.2) eqn:Hh;
    [done |].
  apply NoDup_app. split; [done |]. split; [| apply NoDup_singleton].
  intros y Hy Hy'. apply list_elem_of_singleton in Hy'. subst y.
  destruct x as [u r]. apply has_role_elem in Hy. simpl in Hh. congruence.
Qed.

Lemma carry_over_elem t profiles roles y :
  y ∈ carry_over t profiles roles
  ↔ y ∈ roles ∨ (y.1, t) ∈ profiles ∧ y.2 = role_of t.
Proof.
  unfold carry_over. revert roles.
  induction profiles as [|[u t'] rest IH]; intros roles; simpl.
  - split; [by left | intros [?|[H _]]; [done | by apply not_elem_of_nil in H]].
  - rewrite IH. destruct (decide (t' = t)) as [->|Hne].
    + rewrite bool_decide_eq_true_2 by done. rewrite insert_role_elem.
      rewrite elem_of_cons. destruct y as [u' r']. simpl.
      split; [intros [[?| H]|[? ?]] | intros [?|[[H| ?] ?]]]; eauto.
      * inversion H; subst. eauto.
      * inversion H; subst. eauto.
    + rewrite bool_decide_eq_false_2 by done. rewrite elem_of_cons.
      split; [intros [?|[? ?]] | intros [?|[[H| ?] ?]]]; eauto.
      inversion H; subst. done.
Qed.

Lemma carry_over_NoDup t profiles roles :
  NoDup roles → NoDup (carry_over t profiles roles).
Proof.
  unfold carry_over. revert roles.
  induction profiles as [|[u t'] rest IH]; intros roles Hd; simpl; [done |].
  apply IH. destruct (bool_decide (t' = t)); [| done].
  by apply insert_role_NoDup.
Qed.

Lemma profile_unique profiles u (t1 t2 : user_type) :
  NoDup profiles.*1 → (u, t1) ∈ profiles → (u, t2) ∈ profiles → t1 = t2.
Proof.
  induction profiles as [|[u' t'] rest IH]; intros Hd H1 H2.
  - by apply not_elem_of_nil in H1.
  - simpl in Hd. apply NoDup_cons in Hd as [Hfresh Hd].
    apply elem_of_cons in H1 as [H1|H1]; apply elem_of_cons in H2 as [H2|H2].
    + congruence.
    + inversion H1; subst. exfalso. apply Hfresh.
      apply list_elem_of_fmap. by exists (u', t2).
    + inversion H2; subst. exfalso. apply Hfresh.
      apply list_elem_of_fmap. by exists (u', t1).
    + by apply IH.
Qed.

End RolesFacts.

(** X17: the statements that carry the profiles over to user_roles give
    every profile the role named like its user type and nothing else:
    afterwards a user has a role exactly when the user had it before or
    has a profile of that type, nobody has become admin, and the rows are
    still unique.  On a fresh user_roles table, has_role for the role
    staff then answers as the profile's user type does, so the sign-in
    sends a user with a profile to the page whose guard keeps them. *)
Theorem X17_roles_follow_profiles
    (profiles : list (string * Account.user_type))
    (roles : list (string * Account.app_role)) (u : string)
    (r : Account.app_role) :
  (Account.has_role (Account.migrate_roles profiles roles) u r = true
   ↔ Account.has_role roles u r = true
     ∨ ∃ t, (u, t) ∈ profiles ∧ Account.role_of t = r)
  ∧ (Account.has_role (Account.migrate_roles profiles roles) u
       Account.role_admin
     = Account.has_role roles u Account.role_admin)
  ∧ (NoDup roles → NoDup (Account.migrate_roles profiles roles))
  ∧ (∀ t st, NoDup profiles.*1 → (u, t) ∈ profiles →
       Account.settle (Some u) (Some t) st
         (Account.after_login
            (Account.has_role (Account.migrate_roles profiles [])
               u Account.role_staff))
       = Account.after_login
           (Account.has_role (Account.migrate_roles profiles [])
              u Account.role_staff)).
Proof.
  assert (∀ r', Account.has_role (Account.migrate_roles profiles roles) u r'
                = true
                ↔ Account.has_role roles u r' = true
                  ∨ ∃ t, (u, t) ∈ profiles ∧ Account.role_of t = r') as Hiff.
  { intros r'. rewrite !has_role_elem. unfold Account.migrate_roles.
    rewrite !carry_over_elem. simpl. split.
    - intros [[?|[? ?]]|[? ?]]; eauto.
    - intros [?|([|] & ? & <-)]; eauto. }
  split; [apply Hiff |]. split; [| split].
  - destruct (Account.has_role roles u Account.role_admin) eqn:Hold.
    + apply Hiff. by left.
    + apply not_true_is_false. intros Hnew.
      apply Hiff in Hnew as [Hnew|([|] & _ & Ht)]; [congruence | done | done].
  - intros Hd. unfold Account.migrate_roles.
    by do 2 apply carry_over_NoDup.
  - intros t st Hpk Hin.
    assert (Account.has_role (Account.migrate_roles profiles []) u
              Account.role_staff
            = Account.is_staff_profile (Some t)) as ->.
    { destruct t; simpl.
      - apply not_true_is_false. intros Hnew.
        pose proof (proj1 (has_role_elem _ _ _) Hnew) as Hel.
        unfold Account.migrate_roles in Hel.
        rewrite !carry_over_elem in Hel. simpl in Hel.
        destruct Hel as [[Hel|[Hstaff _]]|[_ ?]]; [| | done].
        + by apply not_elem_of_nil in Hel.
        + by pose proof (profile_unique profiles u _ _ Hpk Hin Hstaff).
      - apply has_role_elem. unfold Account.migrate_roles.
        rewrite !carry_over_elem. simpl. left. right. done. }
    destruct t; simpl; [done |].
    unfold Account.checkStaffAuth. simpl.
    by destruct (Store.staff st !! u) as [b|]; [destruct (String.eqb b "") |].
Qed.

(** ** More on what the clients can reach and the store accepts *)
Section ReachMore.
Import Store Checkout Client.

(** The carts of a page are sound, and a checkout page has a cart line
    exactly when it has a branch. *)
Lemma sound_after_step p q :
  page_step p q →
  match p with
  | MenuPage cart _ => positive_quantities cart ∧ distinct_ids cart
  | CheckoutPage cart b _ _ _ =>
      positive_quantities cart ∧ distinct_ids cart
      ∧ (cart = [] ↔ b = EmptyString)
  | _ => True
  end →
  match q with
  | MenuPage cart _ => positive_quantities cart ∧ distinct_ids cart
  | CheckoutPage cart b _ _ _ =>
      positive_quantities cart ∧ distinct_ids cart
      ∧ (cart = [] ↔ b = EmptyString)
  | _ => True
  end.
Proof.
  destruct 1; intros Hp; try done.
  - split; constructor.
  - destruct Hp. split; [by apply addToCart_positive | by apply addToCart_distinct].
  - destruct Hp. split; [apply updateQuantity_positive |].
    by apply updateQuantity_distinct.
  - unfold after_handleCheckout.
    destruct (handleCheckout b cart) as [| |c b'] eqn:Hnav; [done | done |].
    apply handleCheckout_navigates in Hnav as (Hne & -> & -> & Hb).
    simpl. destruct Hp. done.
  - simpl. split; [constructor |]. split; [constructor | done].
  - unfold after_place_order.
    by destruct (handlePlaceOrder session new_id cart b ot a n st).1.
Qed.

End ReachMore.

(** X18: on every page the customer's client can reach, the cart has
    positive quantities and distinct item ids, and a checkout page has a
    cart line exactly when it has a branch; so the rows a reachable
    checkout page sends to ordered_items all have a positive quantity,
    as the table's CHECK asks. *)
Theorem X18_reachable_carts_sound (p : Client.Page) :
  Client.page_reachable p →
  match p with
  | Client.MenuPage cart _ => positive_quantities cart ∧ distinct_ids cart
  | Client.CheckoutPage cart b _ _ _ =>
      positive_quantities cart ∧ distinct_ids cart
      ∧ (cart = [] ↔ b = EmptyString)
      ∧ ∀ oid r, r ∈ Checkout.orderItems oid cart → 0 < Store.quantity r
  | _ => True
  end.
Proof.
  intros Hreach.
  assert (match p with
          | Client.MenuPage cart _ =>
              positive_quantities cart ∧ distinct_ids cart
          | Client.CheckoutPage cart b _ _ _ =>
              positive_quantities cart ∧ distinct_ids cart
              ∧ (cart = [] ↔ b = EmptyString)
          | _ => True
          end) as Hsound.
  { induction Hreach as [|p q _ IH Hstep|p cart b ot a n _ _ _ IH]; [done | |].
    - by apply (sound_after_step p q).
    - exact IH. }
  destruct p as [| |cart b|cart b ot a n]; try done.
  destruct Hsound as (Hp & Hd & Hb). repeat split; try done; try apply Hb.
  intros oid r Hr. apply list_elem_of_In, in_map_iff in Hr as (i & <- & Hi).
  simpl. apply list_elem_of_In in Hi.
  by apply (proj1 (Forall_forall _ _) Hp).
Qed.

(** The checkout page reached with Spring Rolls in the cart. *)
Lemma X18_witness :
  positive_quantities (addToCart Sample.spring_rolls [])
  ∧ distinct_ids (addToCart Sample.spring_rolls []).
Proof.
  destruct (X18_reachable_carts_sound
              (Client.after_handleCheckout (addToCart Sample.spring_rolls [])
                 Sample.downtown)) as (Hp & Hd & _).
  - apply (Client.reach_step
             (Client.MenuPage (addToCart Sample.spring_rolls [])
                Sample.downtown)).
    + apply (Client.reach_step (Client.MenuPage [] Sample.downtown)).
      * apply (Client.reach_step (Client.MenuPage [] EmptyString)).
        -- apply (Client.reach_step Client.AuthPage);
             [apply Client.reach_start | apply Client.open_menu].
        -- apply Client.select_branch.
      * apply Client.add_to_cart.
    + apply Client.checkout_click.
  - split; [exact Hp | exact Hd].
Defined.

(** X19: a checkout only ever adds.  handlePlaceOrder leaves every stored
    order as it is, keeps the stored line items as a prefix of the new
    ones, and never touches the menu, the staff or the branches; and an
    order it adds is for a branch the store holds. *)
Theorem X19_checkout_only_adds (session : option string) (new_id : string)
    (cart : list CartItem) (branchId : string)
    (orderType : Store.OrderType) (deliveryAddress notes : Store.text)
    (st : Store.Store) :
  (∀ k o, Store.orders st !! k = Some o →
     Store.orders
       (Checkout.handlePlaceOrder session new_id cart branchId orderType
          deliveryAddress notes st).2 !! k = Some o)
  ∧ Store.ordered_items st
      `prefix_of` Store.ordered_items
                    (Checkout.handlePlaceOrder session new_id cart branchId
                       orderType deliveryAddress notes st).2
  ∧ Store.menu
      (Checkout.handlePlaceOrder session new_id cart branchId orderType
         deliveryAddress notes st).2 = Store.menu st
  ∧ Store.staff
      (Checkout.handlePlaceOrder session new_id cart branchId orderType
         deliveryAddress notes st).2 = Store.staff st
  ∧ Store.branches
      (Checkout.handlePlaceOrder session new_id cart branchId orderType
         deliveryAddress notes st).2 = Store.branches st
  ∧ (Store.orders
       (Checkout.handlePlaceOrder session new_id cart branchId orderType
          deliveryAddress notes st).2 ≠ Store.orders st →
     branchId ∈ Store.branches st ∧ Store.is_uuid branchId = true).
Proof.
  destruct (handlePlaceOrder_cases session new_id cart branchId orderType
              deliveryAddress notes st)
    as [(_ & _ & Hr)|[_ [[_ Hr]|(uid & _ & [(e & _ & Hr)|(Hfresh & Hcheck & Hr)])]]];
    try (rewrite Hr; simpl; repeat split; done).
  assert (branchId ∈ Store.branches st ∧ Store.is_uuid branchId = true)
    as Hbranch.
  { unfold Store.order_row_check in Hcheck. simpl in Hcheck.
    destruct (Store.is_uuid branchId); [| by rewrite andb_false_r in Hcheck].
    destruct (Store.is_uuid uid); [| done]. simpl in Hcheck.
    destruct (decide (branchId ∈ Store.branches st)) as [Hin|Hout]; [done |].
    by rewrite bool_decide_eq_false_2 in Hcheck. }
  assert (∀ k o, Store.orders st !! k = Some o →
            <[new_id := Checkout.order_payload uid branchId cart orderType
                          deliveryAddress notes]> (Store.orders st) !! k
            = Some o) as Hkeep.
  { intros k o Hk. rewrite lookup_insert_ne; [done | congruence]. }
  destruct Hr as [[e Hr]|Hr]; rewrite Hr; simpl;
    (split; [exact Hkeep |]; split;
       [| split; [done |]; split; [done |]; split; [done |];
          intros _; exact Hbranch]).
  - done.
  - by eexists.
Qed.

(** X20: the insert into ordered_items goes through only for rows of
    orders that exist and belong to the user, with a positive quantity
    and an item of the menu; then all rows are appended, and otherwise
    none is.  A user cannot add a line to another user's order. *)
Theorem X20_items_only_to_own_orders (uid : string)
    (rows : list Store.ItemRow) (st : Store.Store) :
  match Store.insert_items uid rows st with
  | inr st' =>
      Store.ordered_items st' = Store.ordered_items st ++ rows
      ∧ Store.orders st' = Store.orders st
      ∧ ∀ r, r ∈ rows →
          0 < Store.quantity r
          ∧ (∃ oid o, Store.order_id r = Some oid
                      ∧ Store.orders st !! oid = Some o
                      ∧ Store.user_id o = Some uid)
          ∧ (∀ m, Store.menu_id r = Some m → is_Some (Store.menu st !! m))
  | inl _ =>
      ∃ r, r ∈ rows
           ∧ (Store.quantity r ≤ 0
              ∨ Store.uuid_ok (Store.order_id r) = false
              ∨ Store.uuid_ok (Store.menu_id r) = false
              ∨ (∃ m, Store.menu_id r = Some m ∧ Store.menu st !! m = None)
              ∨ Store.items_insert_policy st uid r = false)
  end.
Proof.
  unfold Store.insert_items.
  destruct (Store.first_error st uid rows) as [e|] eqn:Herr.
  - clear -Herr. induction rows as [|r rest IH]; [done |]. simpl in Herr.
    destruct (Store.item_row_error st uid r) as [e'|] eqn:Hr.
    + exists r. split; [by left |]. clear IH Herr.
      unfold Store.item_row_error, Store.item_row_check in Hr.
      destruct (Store.uuid_ok (Store.order_id r)); [| by right; left].
      destruct (Store.uuid_ok (Store.menu_id r)); [| by right; right; left].
      simpl in Hr. destruct (0 <? Store.quantity r) eqn:Hq;
        [| left; by apply Z.ltb_ge in Hq].
      simpl in Hr. destruct (Store.menu_id r) as [m|] eqn:Hm.
      * destruct (Store.menu st !! m) eqn:Hmenu;
          [| right; right; right; left; by exists m].
        destruct (Store.items_insert_policy st uid r); [done |].
        by do 4 right.
      * destruct (Store.items_insert_policy st uid r); [done |].
        by do 4 right.
    + destruct (IH Herr) as (r' & Hin & Hwhy). exists r'. split; [by right | done].
  - split; [done |]. split; [done |]. intros r Hr.
    pose proof (first_error_None st uid rows r Herr Hr) as [Hq Hpol].
    split; [by apply Z.ltb_lt |]. split.
    + unfold Store.items_insert_policy in Hpol.
      destruct (Store.order_id r) as [oid|]; [| done].
      destruct (Store.orders st !! oid) as [o|] eqn:Ho; [| done].
      exists oid, o. split; [done |]. split; [done |].
      unfold Store.own in Hpol. destruct (Store.user_id o) as [u|]; [| done].
      apply String.eqb_eq in Hpol. by subst u.
    + intros m Hm. clear Hq Hpol.
      induction rows as [|r' rest IH]; [by apply not_elem_of_nil in Hr |].
      simpl in Herr.
      destruct (Store.item_row_error st uid r') eqn:Hr'; [done |].
      apply elem_of_cons in Hr as [->|Hr]; [| by apply IH].
      unfold Store.item_row_error, Store.item_row_check in Hr'.
      destruct (negb _); [done |]. destruct (negb _); [done |].
      rewrite Hm in Hr'. by destruct (Store.menu st !! m).
Qed.

(** X21: the customer's order list shows a user without a staff
    assignment exactly the user's own orders, each once, and never an
    order of someone else. *)
Theorem X21_customer_sees_own_orders (uid : string) (st : Store.Store) :
  Store.staff st !! uid = None →
  (∀ k o, (k, o) ∈ Orders.fetchOrders uid st
          ↔ Store.orders st !! k = Some o ∧ Store.user_id o = Some uid)
  ∧ NoDup (Orders.fetchOrders uid st).*1.
Proof.
  intros Hstaff. split.
  - intros k o. unfold Orders.fetchOrders.
    rewrite list_elem_of_In, filter_In, <- list_elem_of_In,
      elem_of_map_to_list. simpl.
    unfold Store.orders_select_policy, Store.staff_of_branch, Store.own.
    rewrite Hstaff, orb_false_r.
    destruct (Store.user_id o) as [u|]; [| intuition congruence].
    rewrite String.eqb_eq. intuition congruence.
  - unfold Orders.fetchOrders.
    apply (sublist_NoDup _ (map_to_list (Store.orders st)).*1);
      [apply NoDup_fst_map_to_list |].
    apply fmap_sublist.
    induction (map_to_list (Store.orders st)) as [|x l IH];
      simpl; [constructor |].
    destruct (Store.orders_select_policy st uid x.2); by constructor.
Qed.

(** The sample customer and the store with the sample order. *)
Lemma X21_witness :
  NoDup (Orders.fetchOrders Sample.customer Sample.store_with_dine_in).*1.
Proof.
  apply (X21_customer_sees_own_orders Sample.customer
           Sample.store_with_dine_in).
  vm_compute. reflexivity.
Defined.
